(** * Voice agent (speech -> Ollama -> text): a shallow embedding

    The development follows [voice_agent.py] and [test_agent.py]:
    Python strings are sequences of Unicode code points, decoded JSON
    bodies are Python values, and every call that talks to the outside
    world (microphone, recogniser, HTTP, console) is answered by an
    oracle value and recorded in a trace of events. *)

From Stdlib Require Import List Bool Arith NArith ZArith QArith Lia.
From Stdlib Require Import Ascii String.
Import ListNotations.
Close Scope Q_scope.

Set Implicit Arguments.
Set Warnings "-register-all".

(* ================================================================= *)
(** ** Python strings *)

(** A Python [str]: the list of its code points. *)
Definition str : Type := list N.

Definition bytes_of (s : string) : list N :=
  List.map (fun c => N_of_ascii c) (list_ascii_of_string s).

(** UTF-8 decoding of a source literal into code points; used only to
    write the program's string constants readably. *)
Fixpoint utf8_decode (bs : list N) : str :=
  match bs with
  | [] => []
  | b0 :: r0 =>
      if (b0 <? 128)%N then b0 :: utf8_decode r0
      else if (b0 <? 224)%N then
        match r0 with
        | b1 :: r1 =>
            (N.lor (N.shiftl (N.land b0 31) 6) (N.land b1 63)) :: utf8_decode r1
        | [] => [b0]
        end
      else if (b0 <? 240)%N then
        match r0 with
        | b1 :: b2 :: r2 =>
            (N.lor (N.shiftl (N.land b0 15) 12)
               (N.lor (N.shiftl (N.land b1 63) 6) (N.land b2 63)))
              :: utf8_decode r2
        | _ => b0 :: r0
        end
      else
        match r0 with
        | b1 :: b2 :: b3 :: r3 =>
            (N.lor (N.shiftl (N.land b0 7) 18)
               (N.lor (N.shiftl (N.land b1 63) 12)
                  (N.lor (N.shiftl (N.land b2 63) 6) (N.land b3 63))))
              :: utf8_decode r3
        | _ => b0 :: r0
        end
  end.

Definition u (s : string) : str := utf8_decode (bytes_of s).

Fixpoint str_eqb (a b : str) : bool :=
  match a, b with
  | [], [] => true
  | x :: a', y :: b' => (x =? y)%N && str_eqb a' b'
  | _, _ => false
  end.

(** [starts_with p s]: [s.startswith(p)]. *)
Fixpoint starts_with (p s : str) : bool :=
  match p, s with
  | [], _ => true
  | x :: p', y :: s' => (x =? y)%N && starts_with p' s'
  | _ :: _, [] => false
  end.

(** [contains p s]: the Python expression [p in s] on strings. *)
Fixpoint contains (p s : str) : bool :=
  starts_with p s ||
  match s with
  | [] => false
  | _ :: s' => contains p s'
  end.

(** [s.replace(old, new)]: every non-overlapping occurrence of [old],
    scanning from the left.  [skip] counts the code points of the
    occurrence just replaced that are still to be dropped. *)
Fixpoint replace_from (old new : str) (skip : nat) (s : str) : str :=
  match s with
  | [] => []
  | c :: s' =>
      match skip with
      | S k => replace_from old new k s'
      | O =>
          if starts_with old s
          then new ++ replace_from old new (Nat.pred (List.length old)) s'
          else c :: replace_from old new O s'
      end
  end.

Definition replace (old new s : str) : str :=
  match old with
  | [] => new ++ List.concat (List.map (fun c => c :: new) s)
  | _ :: _ => replace_from old new O s
  end.

(** Code-point lowering on the Basic Latin and basic Cyrillic blocks,
    where [str.lower] acts one code point at a time: [A-Z] and
    U+0410..U+042F move up by 32, U+0400..U+040F by 80.  It serves to
    evaluate the program on concrete replies written in these two
    alphabets; the general theorems are stated for an arbitrary
    lowering function. *)
Definition lower_cp (c : N) : N :=
  if ((65 <=? c) && (c <=? 90))%N then (c + 32)%N
  else if ((1040 <=? c) && (c <=? 1071))%N then (c + 32)%N
  else if ((1024 <=? c) && (c <=? 1039))%N then (c + 80)%N
  else c.

Definition lower_latin_cyrillic (s : str) : str := List.map lower_cp s.

(* ================================================================= *)
(** ** Python values *)

(** Values produced by [response.json()] and passed around by the agent.
    A float is kept as its IEEE-754 binary64 bit pattern. *)
Inductive pyval : Type :=
| PNone
| PBool (b : bool)
| PInt (z : Z)
| PFloat (bits : Z)
| PStr (s : str)
| PList (items : list pyval)
| PDict (items : list (str * pyval)).

(** Truth value of an object, as tested by [if x:] and [x and y]. *)
Definition truthy (v : pyval) : bool :=
  match v with
  | PNone => false
  | PBool b => b
  | PInt z => negb (z =? 0)%Z
  | PFloat bits => negb (Z.land bits (2 ^ 63 - 1) =? 0)%Z
  | PStr s => match s with [] => false | _ => true end
  | PList l => match l with [] => false | _ => true end
  | PDict d => match d with [] => false | _ => true end
  end.

(** Lookup in a dict given by its items (keys are unique in a dict; the
    first binding is the binding). *)
Fixpoint dict_lookup (items : list (str * pyval)) (key : str) : option pyval :=
  match items with
  | [] => None
  | (k, v) :: rest => if str_eqb k key then Some v else dict_lookup rest key
  end.

(* ================================================================= *)
(** ** Exceptions *)

Inductive exn : Type :=
| WaitTimeoutError                 (* sr.WaitTimeoutError *)
| UnknownValueError                (* sr.UnknownValueError *)
| RequestError (msg : str)         (* sr.RequestError *)
| ConnectTimeout                   (* requests: both Timeout and ConnectionError *)
| ReadTimeout                      (* requests: Timeout *)
| RequestsConnectionError          (* requests.exceptions.ConnectionError *)
| JSONDecodeError                  (* raised by response.json() *)
| AttributeError                   (* a method missing on the object *)
| ConnectionError (url : str)      (* builtin, raised by VoiceAgent.__init__ *)
| OtherException (name : str)      (* any other subclass of Exception *)
| KeyboardInterrupt.               (* a BaseException, not an Exception *)

Definition is_Exception (e : exn) : bool :=
  match e with
  | KeyboardInterrupt => false
  | _ => true
  end.

Definition is_requests_Timeout (e : exn) : bool :=
  match e with
  | ConnectTimeout | ReadTimeout => true
  | _ => false
  end.

Definition is_requests_ConnectionError (e : exn) : bool :=
  match e with
  | ConnectTimeout | RequestsConnectionError => true
  | _ => false
  end.

(** What the outside world answers to a call: a value or an exception. *)
Inductive answer (A : Type) : Type :=
| Returns (a : A)
| Raises (e : exn).
Arguments Raises {A} e.

(* ================================================================= *)
(** ** Requests, responses and the trace of effects *)

(** The JSON document posted to the chat endpoint. *)
Record chat_message : Type := mk_message { role : str; content : str }.

Record chat_request : Type := mk_payload {
  req_model : str;
  req_messages : list chat_message;
  req_stream : bool
}.

(** A [requests.Response]: [json] is what [response.json()] decodes the
    body to, [None] when the body is not JSON and the call raises. *)
Record Response : Type := mk_response {
  status_code : Z;
  body_text : str;
  json : option pyval
}.

Inductive AudioData : Type := mk_audio (samples : list Z).

(** Lines written to standard output, one constructor per [print] of the
    two programs; the decoration of each line is left out, its data kept. *)
Inductive message : Type :=
| MsgBanner (url model : str)          (* the start-up banner of either program *)
| MsgSpeak
| MsgProcessing
| MsgRecognized (t : str)
| MsgWaitTimeout
| MsgUnrecognized
| MsgRecognitionError (e : exn)
| MsgQuery (t : str)
| MsgSending (model : str)
| MsgApiError (status : Z)
| MsgBody (body : str)
| MsgLlmTimeout
| MsgLlmError (e : exn)
| MsgReply (reply : pyval)
| MsgRule                              (* "=" * 60 *)
| MsgCannotConnect (url : str)
| MsgStartHint
| MsgError (e : exn)
| MsgTestHeader (i n : nat)
| MsgDash                              (* "-" * 60 *)
| MsgBlank
| MsgGoodbye
| MsgFinished
| MsgFatal (e : exn).

Inductive event : Type :=
| Stdout (m : message)
| HttpGet (url : str) (timeout : Z)
| HttpPost (url : str) (payload : chat_request) (timeout : Z)
| MicOpen
| MicClose
| AdjustForAmbientNoise (duration : Q)
| Listen (timeout phrase_time_limit : Z)
| RecognizeGoogle (audio : AudioData) (language : str)
| Input.                               (* the blocking "press Enter" prompt *)

Definition trace : Type := list event.

(* ================================================================= *)
(** ** Computations: a result or a raised exception, with the trace *)

Inductive outcome (A : Type) : Type :=
| Ret (a : A)
| Raise (e : exn).
Arguments Raise {A} e.

Definition io (A : Type) : Type := (outcome A * trace)%type.

Definition ret {A} (a : A) : io A := (Ret a, []).
Definition raise {A} (e : exn) : io A := (Raise e, []).
Definition emit (ev : event) : io unit := (Ret tt, [ev]).
Definition print (m : message) : io unit := emit (Stdout m).

Definition bind {A B} (m : io A) (k : A -> io B) : io B :=
  match m with
  | (Ret a, t) => let (r, t') := k a in (r, t ++ t')
  | (Raise e, t) => (Raise e, t)
  end.

(** [try: m except ...: handler]: the handler decides which exceptions it
    takes and raises the others again. *)
Definition try_except {A} (m : io A) (handler : exn -> io A) : io A :=
  match m with
  | (Ret a, t) => (Ret a, t)
  | (Raise e, t) => let (r, t') := handler e in (r, t ++ t')
  end.

(** [with resource: m].  When acquiring the resource raises, the body
    does not run and there is nothing to release; once it is acquired,
    the release event follows on every exit path of the body. *)
Definition with_resource {A} (acquired : answer unit)
  (acquire release : event) (m : io A) : io A :=
  match acquired with
  | Raises e => raise e
  | Returns _ => let (r, t) := m in (r, acquire :: t ++ [release])
  end.

(** A call to the outside world: the event is recorded, the oracle answers. *)
Definition call {A} (ev : event) (a : answer A) : io A :=
  (match a with Returns x => Ret x | Raises e => Raise e end, [ev]).

Declare Scope io_scope.
Delimit Scope io_scope with io.
Notation "x <- m ;; k" := (bind m (fun x => k))
  (at level 61, m at next level, right associativity) : io_scope.
Notation "m ;;; k" := (bind m (fun _ => k))
  (at level 61, right associativity) : io_scope.
Open Scope io_scope.

(** [v.get(key, default)]: only a dict has the method. *)
Definition py_get (v : pyval) (key : str) (default : pyval) : io pyval :=
  match v with
  | PDict items =>
      ret (match dict_lookup items key with Some x => x | None => default end)
  | _ => raise AttributeError
  end.

(** [response.json()]. *)
Definition json_of (response : Response) : io pyval :=
  match json response with
  | Some v => ret v
  | None => raise JSONDecodeError
  end.

(** [for x in l: body(x)]. *)
Fixpoint for_each {A} (body : A -> io unit) (l : list A) : io unit :=
  match l with
  | [] => ret tt
  | x :: rest => body x ;;; for_each body rest
  end.

(** [enumerate(l, start)]. *)
Definition enumerate {A} (l : list A) (start : nat) : list (nat * A) :=
  List.combine (List.seq start (List.length l)) l.

(* ================================================================= *)
(** ** Configuration *)

(** [os.environ] as seen after [load_dotenv()]. *)
Definition environ : Type := str -> option str.

(** [os.getenv(key, default)]. *)
Definition getenv (env : environ) (key default : str) : str :=
  match env key with
  | Some v => v
  | None => default
  end.

(** [x or y] for an argument that is [None] or a string: the empty
    string is as false as [None]. *)
Definition py_or (x : option str) (y : str) : str :=
  match x with
  | Some (c :: s) => c :: s
  | Some [] => y
  | None => y
  end.

Definition OLLAMA_BASE_URL : str := Eval cbv in u "OLLAMA_BASE_URL".
Definition OLLAMA_MODEL : str := Eval cbv in u "OLLAMA_MODEL".
Definition DEFAULT_URL : str := Eval cbv in u "http://localhost:11434/api".
Definition DEFAULT_MODEL : str := Eval cbv in u "llama3.2".
Definition NO_ANSWER : str := Eval cbv in u "Нет ответа".

(** The collaborators of the two programs. *)
Definition tags_endpoint : Type := str -> answer Response.
Definition chat_endpoint : Type := str -> chat_request -> answer Response.

(** The payload of a chat request (the dict literal of both programs). *)
Definition chat_payload (model text : str) : chat_request :=
  mk_payload model [mk_message (u "user") text] false.

(* ================================================================= *)
(** ** voice_agent.py *)

Module voice_agent.

Inductive Recognizer : Type := mk_recognizer.

(** The attributes of a [VoiceAgent] object. *)
Record VoiceAgent : Type := mk_agent {
  self_recognizer : Recognizer;
  self_ollama_url : str;
  self_model : str
}.

(** What one pass of the command loop gets from the outside world, each
    part consulted only if the pass reaches the call. *)
Record stage : Type := mk_stage {
  microphone : answer unit;                   (* sr.Microphone() and entering it *)
  calibration : answer unit;                  (* recognizer.adjust_for_ambient_noise *)
  capture : answer AudioData;                 (* recognizer.listen *)
  recognition : AudioData -> answer str;      (* recognizer.recognize_google *)
  chat : chat_endpoint;                       (* POST {base}/chat *)
  confirmation : answer str                   (* input(...) *)
}.

(** [VoiceAgent._check_ollama_available]. *)
Definition _check_ollama_available (self : VoiceAgent) (tags : tags_endpoint)
  : io bool :=
  try_except
    (let url := replace (u "/api") [] (self_ollama_url self) ++ u "/api/tags" in
     response <- call (HttpGet url 5) (tags url) ;;
     ret (status_code response =? 200)%Z)
    (fun e => if is_Exception e then ret false else raise e).

(** [VoiceAgent.__init__]. *)
Definition __init__ (env : environ) (ollama_url model : option str)
  (tags : tags_endpoint) : io VoiceAgent :=
  let self :=
    mk_agent mk_recognizer
      (py_or ollama_url (getenv env OLLAMA_BASE_URL DEFAULT_URL))
      (py_or model (getenv env OLLAMA_MODEL DEFAULT_MODEL)) in
  available <- _check_ollama_available self tags ;;
  if negb available
  then raise (ConnectionError (self_ollama_url self))
  else ret self.

(** [VoiceAgent.listen].  The microphone is opened and the ambient noise
    measured before the [try] (lines 43-45): what these two raise is not
    seen by the handlers. *)
Definition listen (self : VoiceAgent) (w : stage) : io (option str) :=
  print MsgSpeak ;;;
  with_resource (microphone w) MicOpen MicClose
    (call (AdjustForAmbientNoise (1 # 2)%Q) (calibration w) ;;;
     try_except
       (audio <- call (Listen 5 10) (capture w) ;;
        print MsgProcessing ;;;
        text <- call (RecognizeGoogle audio (u "ru-RU")) (recognition w audio) ;;
        print (MsgRecognized text) ;;;
        ret (Some text))
       (fun e =>
          match e with
          | WaitTimeoutError => print MsgWaitTimeout ;;; ret None
          | UnknownValueError => print MsgUnrecognized ;;; ret None
          | RequestError _ => print (MsgRecognitionError e) ;;; ret None
          | _ => raise e
          end)).

(** [VoiceAgent.get_llm_response]. *)
Definition get_llm_response (self : VoiceAgent) (endpoint : chat_endpoint)
  (text : str) : io pyval :=
  try_except
    (print (MsgSending (self_model self)) ;;;
     let payload := chat_payload (self_model self) text in
     let url := self_ollama_url self ++ u "/chat" in
     response <- call (HttpPost url payload 60) (endpoint url payload) ;;
     if negb (status_code response =? 200)%Z
     then print (MsgApiError (status_code response)) ;;; ret PNone
     else
       result <- json_of response ;;
       message <- py_get result (u "message") (PDict []) ;;
       response_text <- py_get message (u "content") (PStr NO_ANSWER) ;;
       ret response_text)
    (fun e =>
       if is_requests_Timeout e then print MsgLlmTimeout ;;; ret PNone
       else if is_Exception e then print (MsgLlmError e) ;;; ret PNone
       else raise e).

(** [VoiceAgent.process_voice_command]. *)
Definition process_voice_command (self : VoiceAgent) (w : stage) : io pyval :=
  text <- listen self w ;;
  match text with
  | None => ret PNone
  | Some text =>
      response <- get_llm_response self (chat w) text ;;
      if truthy response
      then print (MsgReply response) ;;; ret response
      else ret PNone
  end.

(** The words that end the session (line 151). *)
Definition EXIT_WORDS : list str :=
  [u "выход"; u "exit"; u "quit"; u "стоп"].

Inductive loop_ctl : Type := Continue | Break.

(** How a run over a finite script of stages stands at its end: the
    program has returned, or the loop is at the top of its next pass. *)
Inductive run_status : Type := Returned | Idle.

(** [while True: body]: one stage of the script per pass. *)
Fixpoint while_true (body : stage -> io loop_ctl) (script : list stage)
  : io run_status :=
  match script with
  | [] => ret Idle
  | w :: rest =>
      c <- body w ;;
      match c with
      | Break => ret Returned
      | Continue => while_true body rest
      end
  end.

Section Loop.

(** [str.lower]. *)
Variable lower : str -> str.

(** [result.lower()]: a method of strings only. *)
Definition py_lower (v : pyval) : io str :=
  match v with
  | PStr s => ret (lower s)
  | _ => raise AttributeError
  end.

(** [result and any(word in result.lower() for word in [...])]. *)
Definition wants_exit (result : pyval) : io bool :=
  if truthy result
  then low <- py_lower result ;;
       ret (List.existsb (fun word => contains word low) EXIT_WORDS)
  else ret false.

(** The body of the [while True] loop of [main] (lines 148-155). *)
Definition loop_body (agent : VoiceAgent) (w : stage) : io loop_ctl :=
  result <- process_voice_command agent w ;;
  leave <- wants_exit result ;;
  if leave
  then print MsgGoodbye ;;; ret Break
  else call Input (confirmation w) ;;; ret Continue.

(** [main]. *)
Definition main (env : environ) (tags : tags_endpoint) (script : list stage)
  : io run_status :=
  print (MsgBanner (getenv env OLLAMA_BASE_URL DEFAULT_URL)
                   (getenv env OLLAMA_MODEL DEFAULT_MODEL)) ;;;
  try_except
    (agent <- __init__ env None None tags ;;
     while_true (loop_body agent) script)
    (fun e =>
       match e with
       | KeyboardInterrupt => print MsgFinished ;;; ret Returned
       | _ => print (MsgFatal e) ;;; ret Returned
       end).

End Loop.

End voice_agent.

(* ================================================================= *)
(** ** test_agent.py *)

Module test_agent.

(** [test_text_to_llm]. *)
Definition test_text_to_llm (env : environ) (endpoint : chat_endpoint)
  (text : str) (ollama_url model : option str) : io unit :=
  let ollama_url := py_or ollama_url (getenv env OLLAMA_BASE_URL DEFAULT_URL) in
  let model := py_or model (getenv env OLLAMA_MODEL DEFAULT_MODEL) in
  try_except
    (print (MsgQuery text) ;;;
     print (MsgSending model) ;;;
     let payload := chat_payload model text in
     let url := ollama_url ++ u "/chat" in
     response <- call (HttpPost url payload 60) (endpoint url payload) ;;
     if negb (status_code response =? 200)%Z
     then print (MsgApiError (status_code response)) ;;;
          print (MsgBody (body_text response))
     else
       result <- json_of response ;;
       message <- py_get result (u "message") (PDict []) ;;
       response_text <- py_get message (u "content") (PStr NO_ANSWER) ;;
       print (MsgReply response_text) ;;;
       print MsgRule)
    (fun e =>
       if is_requests_ConnectionError e
       then print (MsgCannotConnect ollama_url) ;;; print MsgStartHint
       else if is_Exception e then print (MsgError e)
       else raise e).

Definition test_queries : list str :=
  [ u "посчитай два плюс два";
    u "дай определение искусственного интеллекта в одном предложении";
    u "скажи короткий анекдот" ].

(** The body of the [for] loop of [main] (lines 80-83); [endpoint i] is
    the chat endpoint as it answers during test [i]. *)
Definition test_block (env : environ) (endpoint : nat -> chat_endpoint)
  (iq : nat * str) : io unit :=
  let (i, query) := iq in
  print (MsgTestHeader i (List.length test_queries)) ;;;
  print MsgDash ;;;
  test_text_to_llm env (endpoint i) query None None ;;;
  print MsgBlank.

(** [main]. *)
Definition main (env : environ) (endpoint : nat -> chat_endpoint) : io unit :=
  print (MsgBanner (getenv env OLLAMA_BASE_URL DEFAULT_URL)
                   (getenv env OLLAMA_MODEL DEFAULT_MODEL)) ;;;
  print MsgBlank ;;;
  for_each (test_block env endpoint) (enumerate test_queries 1).

End test_agent.

(* ================================================================= *)
(** ** Observations on traces, answers and bodies *)

(** The chat requests of a trace, in order. *)
Fixpoint posts (t : trace) : list (str * chat_request) :=
  match t with
  | [] => []
  | HttpPost url payload _ :: t' => (url, payload) :: posts t'
  | _ :: t' => posts t'
  end.

(** The availability requests of a trace, in order. *)
Fixpoint gets (t : trace) : list str :=
  match t with
  | [] => []
  | HttpGet url _ :: t' => url :: gets t'
  | _ :: t' => gets t'
  end.

(** How often the confirmation prompt was issued. *)
Fixpoint prompts (t : trace) : nat :=
  match t with
  | [] => 0
  | Input :: t' => S (prompts t')
  | _ :: t' => prompts t'
  end.

(** Whether an event touches the microphone or the recogniser. *)
Definition is_audio_event (ev : event) : bool :=
  match ev with
  | MicOpen | MicClose | AdjustForAmbientNoise _ | Listen _ _
  | RecognizeGoogle _ _ => true
  | _ => false
  end.

(** The lines that report how a diagnostic query went: the answer, or
    the notice of the error that took its place. *)
Definition is_result_line (ev : event) : bool :=
  match ev with
  | Stdout (MsgReply _) | Stdout (MsgApiError _)
  | Stdout (MsgCannotConnect _) | Stdout (MsgError _) => true
  | _ => false
  end.

(** How many result lines a trace holds. *)
Definition result_blocks (t : trace) : nat :=
  List.length (List.filter is_result_line t).

(** The reply block of the voice program. *)
Definition is_reply_line (ev : event) : bool :=
  match ev with
  | Stdout (MsgReply _) => true
  | _ => false
  end.

(** An answer that is an interrupt rather than a result or an error. *)
Definition interrupted {A} (a : answer A) : bool :=
  match a with
  | Returns _ => false
  | Raises e => negb (is_Exception e)
  end.

(** The availability probe's verdict on an answer. *)
Definition says_available (a : answer Response) : bool :=
  match a with
  | Returns r => (status_code r =? 200)%Z
  | Raises _ => false
  end.

(** [s] occurs in [t]: [t = a ++ s ++ b] for some [a] and [b]. *)
Definition occurs_in (s t : str) : Prop :=
  exists a b, t = a ++ s ++ b.

(** [old] occurs in [a ++ old ++ b] at offset [length a] and at no
    earlier offset. *)
Definition first_at (old a b : str) : Prop :=
  forall a1 a2, a = a1 ++ a2 -> a2 <> [] ->
                starts_with old (a2 ++ old ++ b) = false.

(** The address of the availability request for a base address
    (the f-string of line 34). *)
Definition tags_url (base : str) : str :=
  replace (u "/api") [] base ++ u "/api/tags".

(** The nested field [message.content] of a decoded body, when the body
    is an object whose "message" is an object that has "content". *)
Definition nested_content (body : pyval) : option pyval :=
  match body with
  | PDict items =>
      match dict_lookup items (u "message") with
      | Some (PDict m) => dict_lookup m (u "content")
      | _ => None
      end
  | _ => None
  end.

(** A body that is an object and either has no "message" or has an
    object there that has no "content". *)
Definition content_absent (body : pyval) : Prop :=
  exists items, body = PDict items /\
    (dict_lookup items (u "message") = None \/
     exists m, dict_lookup items (u "message") = Some (PDict m) /\
               dict_lookup m (u "content") = None).

(** An override that is not given: left out ([None]) or empty. *)
Definition not_given (override : option str) : Prop :=
  override = None \/ override = Some [].

(** [value] is the setting chosen from an override, the value of the
    environment variable and the default: the override when given, else
    the environment value when the variable is set, else the default. *)
Definition resolves_to (override env_value : option str)
  (default value : str) : Prop :=
  (forall s, override = Some s -> s <> [] -> value = s) /\
  (forall v, not_given override -> env_value = Some v -> value = v) /\
  (not_given override -> env_value = None -> value = default).

(** The chat request that carries [text] under the settings [base] and
    [name]. *)
Definition chat_call (base name text : str) : str * chat_request :=
  (base ++ u "/chat", chat_payload name text).

(** A pass of the loop that yields no reply: [listen] gave [None], or it
    gave a text and the model call gave [None]. *)
Definition no_reply (agent : voice_agent.VoiceAgent) (w : voice_agent.stage)
  : Prop :=
  fst (voice_agent.listen agent w) = Ret None \/
  exists t, fst (voice_agent.listen agent w) = Ret (Some t) /\
            fst (voice_agent.get_llm_response agent (voice_agent.chat w) t)
            = Ret PNone.

(** What the diagnostic program prints and does for test [i] on query
    [q]: the header, the dashes, the query's own lines, a blank line. *)
Definition block_trace (env : environ) (endpoint : nat -> chat_endpoint)
  (i : nat) (q : str) : trace :=
  [Stdout (MsgTestHeader i 3); Stdout MsgDash] ++
  snd (test_agent.test_text_to_llm env (endpoint i) q None None) ++
  [Stdout MsgBlank].

(* ================================================================= *)
(** ** Concrete runs *)

(** An environment with neither variable set. *)
Definition no_env : environ := fun _ => None.

(** The agent that [VoiceAgent()] builds in that environment. *)
Definition agent0 : voice_agent.VoiceAgent :=
  voice_agent.mk_agent voice_agent.mk_recognizer DEFAULT_URL DEFAULT_MODEL.

(** The body of a well-formed answer of the chat endpoint. *)
Definition ok_body (reply : pyval) : pyval :=
  PDict [(u "message", PDict [(u "role", PStr (u "assistant"));
                              (u "content", reply)])].

(** A 200 answer whose body has "message" set to [null]. *)
Definition null_message_body : pyval := PDict [(u "message", PNone)].

(** A chat endpoint that answers every request the same way. *)
Definition stub (a : answer Response) : chat_endpoint := fun _ _ => a.

(** An answer with the given status and decoded body. *)
Definition replies (status : Z) (body : pyval) : answer Response :=
  Returns (mk_response status [] (Some body)).

(** The inference service is running, or it is not. *)
Definition tags_up : tags_endpoint :=
  fun _ => Returns (mk_response 200 [] (Some (PDict []))).

Definition tags_down : tags_endpoint := fun _ => Raises RequestsConnectionError.

(** A stage where [heard] is recognised, the model answers [a], and the
    user presses Enter at the prompt. *)
Definition stage_of (heard : str) (a : answer Response) : voice_agent.stage :=
  voice_agent.mk_stage (Returns tt) (Returns tt)
    (Returns (mk_audio [])) (fun _ => Returns heard)
    (stub a) (Returns []).

(** A stage where nobody speaks. *)
Definition silent_stage : voice_agent.stage :=
  voice_agent.mk_stage (Returns tt) (Returns tt)
    (Raises WaitTimeoutError) (fun _ => Returns [])
    (stub (Raises RequestsConnectionError)) (Returns []).

(** A stage where the model's reply is the Latin word "stop". *)
Definition stop_stage : voice_agent.stage :=
  stage_of (u "скажи stop") (replies 200 (ok_body (PStr (u "stop")))).

(** A chat endpoint for the diagnostic run: the first query is answered,
    the second meets an error status, the third finds no server. *)
Definition mixed_endpoint : nat -> chat_endpoint :=
  fun i =>
    match i with
    | 1 => stub (replies 200 (ok_body (PStr (u "4"))))
    | 2 => stub (replies 500 PNone)
    | _ => stub (Raises RequestsConnectionError)
    end.

(* ================================================================= *)
(** ** Further observations *)

(** Getting ready to listen, before the [try] of [listen]: the
    microphone is opened, then the ambient noise is measured. *)
Definition setup (w : voice_agent.stage) : answer unit :=
  match voice_agent.microphone w with
  | Returns _ => voice_agent.calibration w
  | Raises e => Raises e
  end.

(** Inside the [try] of [listen]: the recognised text, or the exception
    raised by the capture or, after it, by the recognition. *)
Definition attempt (w : voice_agent.stage) : answer str :=
  match voice_agent.capture w with
  | Returns audio => voice_agent.recognition w audio
  | Raises e => Raises e
  end.

(** What a stage lets the agent hear: the recognised text, or the
    exception raised on the way to it -- by the microphone, the
    measurement of the noise, the capture or the recognition, whichever
    comes first. *)
Definition heard (w : voice_agent.stage) : answer str :=
  match setup w with
  | Returns _ => attempt w
  | Raises e => Raises e
  end.

(** The exceptions named by the handlers of [listen] (lines 57-65). *)
Definition listen_handles (e : exn) : bool :=
  match e with
  | WaitTimeoutError | UnknownValueError | RequestError _ => true
  | _ => false
  end.

(** How many events of a trace satisfy [p]. *)
Definition count (p : event -> bool) (t : trace) : nat :=
  List.length (List.filter p t).

Definition is_mic_open (ev : event) : bool :=
  match ev with MicOpen => true | _ => false end.

Definition is_mic_close (ev : event) : bool :=
  match ev with MicClose => true | _ => false end.



(** The two lines sent before the answer of the chat endpoint is known. *)
Definition sent (self : voice_agent.VoiceAgent) (text : str) : trace :=
  [Stdout (MsgSending (voice_agent.self_model self));
   HttpPost (voice_agent.self_ollama_url self ++ u "/chat")
            (chat_payload (voice_agent.self_model self) text) 60].

(** The traces of the passes over a script, one after the other. *)
Definition passes (lower : str -> str) (agent : voice_agent.VoiceAgent)
  (script : list voice_agent.stage) : trace :=
  List.concat
    (List.map (fun w => snd (voice_agent.loop_body lower agent w)) script).

(** A stage whose pass ends with the loop going on. *)
Definition continues (lower : str -> str) (agent : voice_agent.VoiceAgent)
  (w : voice_agent.stage) : Prop :=
  fst (voice_agent.loop_body lower agent w) = Ret voice_agent.Continue.

(** A stage on a machine with no sound input: opening the microphone
    raises [OSError]. *)
Definition deaf_stage : voice_agent.stage :=
  voice_agent.mk_stage (Raises (OtherException (u "OSError"))) (Returns tt)
    (Returns (mk_audio [])) (fun _ => Returns [])
    (stub (Raises RequestsConnectionError)) (Returns []).

(** A stage where the measurement of the ambient noise fails. *)
Definition noisy_stage : voice_agent.stage :=
  voice_agent.mk_stage (Returns tt) (Raises (OtherException (u "OSError")))
    (Returns (mk_audio [])) (fun _ => Returns [])
    (stub (Raises RequestsConnectionError)) (Returns []).

(** A stage where the model's reply is the number 5. *)
Definition number_stage : voice_agent.stage :=
  stage_of (u "сколько") (replies 200 (ok_body (PInt 5))).

(** A stage with an ordinary reply. *)
Definition plain_stage : voice_agent.stage :=
  stage_of (u "привет") (replies 200 (ok_body (PStr (u "Здравствуйте"))))  .

(** A stage whose reply takes leave. *)
Definition exit_stage : voice_agent.stage :=
  stage_of (u "пока") (replies 200 (ok_body (PStr (u "Выход из программы")))).

(** An agent set up with a base address that has no "/api" in it. *)
Definition bare_agent : voice_agent.VoiceAgent :=
  voice_agent.mk_agent voice_agent.mk_recognizer
    (u "http://localhost:11434") DEFAULT_MODEL.

(** A chat endpoint interrupted while it answers the second query. *)
Definition interrupted_endpoint : nat -> chat_endpoint :=
  fun i =>
    match i with
    | 2 => stub (Raises KeyboardInterrupt)
    | _ => stub (replies 200 (ok_body (PStr (u "4"))))
    end.

(* ================================================================= *)
(** * Properties *)

Import voice_agent.

(* ----------------------------------------------------------------- *)
(** ** Strings *)

Example utf8_stop_word : u "стоп" = [1089; 1090; 1086; 1087]%N.
Proof. reflexivity. Qed.

Example lower_exit_word :
  lower_latin_cyrillic (u "ВЫХОД Exit") = u "выход exit".
Proof. reflexivity. Qed.

Lemma starts_with_iff (p s : str) :
  starts_with p s = true <-> exists b, s = p ++ b.
Proof.
  revert s; induction p as [|x p IH]; intros s; simpl.
  - split; [intros _; now exists s | reflexivity].
  - destruct s as [|y s].
    + split; [discriminate | intros [b Hb]; discriminate].
    + rewrite andb_true_iff, N.eqb_eq, IH. split.
      * intros [-> [b ->]]. now exists b.
      * intros [b Hb]. injection Hb as -> ->. split; [reflexivity | now exists b].
Qed.

Lemma contains_iff (p s : str) :
  contains p s = true <-> occurs_in p s.
Proof.
  unfold occurs_in. induction s as [|y s IH].
  - simpl. rewrite orb_false_r, starts_with_iff. split.
    + intros [b Hb]. now exists [], b.
    + intros [a [b Hab]]. destruct a as [|? a]; [|discriminate].
      now exists b.
  - cbn [contains]. rewrite orb_true_iff, starts_with_iff, IH. split.
    + intros [[b Hb] | [a [b Hab]]].
      * now exists [], b.
      * exists (y :: a), b. now rewrite Hab.
    + intros [a [b Hab]]. destruct a as [|z a].
      * left. now exists b.
      * right. injection Hab as _ ->. now exists a, b.
Qed.

Lemma existsb_contains_iff (words : list str) (s : str) :
  List.existsb (fun word => contains word s) words = true <->
  exists word, In word words /\ occurs_in word s.
Proof.
  rewrite existsb_exists. split; intros [w [Hin Hw]]; exists w;
    (split; [assumption | now apply contains_iff]).
Qed.

(* ----------------------------------------------------------------- *)
(** ** Traces of composed computations *)

Lemma snd_bind {A B} (m : io A) (k : A -> io B) :
  snd (bind m k) =
  snd m ++ match fst m with Ret a => snd (k a) | Raise _ => [] end.
Proof.
  destruct m as [[a|e] t]; cbn [bind fst snd].
  - destruct (k a); reflexivity.
  - now rewrite app_nil_r.
Qed.

Section TraceInvariant.

(** A property of single events, to be shown of every event of a trace. *)
Variable P : event -> Prop.

Lemma all_ret {A} (a : A) : Forall P (snd (ret a)).
Proof. constructor. Qed.

Lemma all_raise {A} (e : exn) : Forall P (snd (raise (A := A) e)).
Proof. constructor. Qed.

Lemma all_emit (ev : event) : P ev -> Forall P (snd (emit ev)).
Proof. intros H. repeat constructor. exact H. Qed.

Lemma all_print (m : message) : P (Stdout m) -> Forall P (snd (print m)).
Proof. apply all_emit. Qed.

Lemma all_call {A} (ev : event) (a : answer A) :
  P ev -> Forall P (snd (call ev a)).
Proof. intros H. repeat constructor. exact H. Qed.

Lemma all_bind {A B} (m : io A) (k : A -> io B) :
  Forall P (snd m) -> (forall a, Forall P (snd (k a))) ->
  Forall P (snd (bind m k)).
Proof.
  intros Hm Hk. rewrite snd_bind. apply Forall_app. split; [exact Hm|].
  destruct (fst m); [apply Hk | constructor].
Qed.

Lemma all_try_except {A} (m : io A) (h : exn -> io A) :
  Forall P (snd m) -> (forall e, Forall P (snd (h e))) ->
  Forall P (snd (try_except m h)).
Proof.
  intros Hm Hh. destruct m as [[a|e] t]; cbn [try_except snd] in *.
  - exact Hm.
  - specialize (Hh e). destruct (h e). cbn [snd] in *.
    apply Forall_app. now split.
Qed.

Lemma all_with_resource {A} (a : answer unit) (acq rel : event) (m : io A) :
  P acq -> P rel -> Forall P (snd m) ->
  Forall P (snd (with_resource a acq rel m)).
Proof.
  intros Ha Hr Hm. destruct a as [x|e]; [|constructor].
  destruct m as [r t]. cbn [with_resource snd] in *.
  constructor; [exact Ha|]. apply Forall_app. split; [exact Hm|].
  repeat constructor. exact Hr.
Qed.

Lemma all_json_of (r : Response) : Forall P (snd (json_of r)).
Proof. unfold json_of. destruct (json r); constructor. Qed.

Lemma all_py_get (v : pyval) (key : str) (d : pyval) :
  Forall P (snd (py_get v key d)).
Proof. destruct v; constructor. Qed.

End TraceInvariant.

(** Splits a goal [Forall P (snd prog)] along the structure of [prog],
    leaving the side conditions [P ev] of the events [prog] can emit. *)
Ltac trace_all :=
  repeat first
    [ apply all_ret | apply all_raise | apply all_json_of | apply all_py_get
    | apply all_print | apply all_emit | apply all_call
    | apply all_bind; [|intros]
    | apply all_try_except; [|intros]
    | apply all_with_resource
    | match goal with
      | |- Forall _ (snd (if ?b then _ else _)) => destruct b
      | |- Forall _ (snd (match ?x with _ => _ end)) => destruct x
      | |- Forall _ (snd (let _ := _ in _)) => cbv zeta
      end ].

Lemma prompts_app (t1 t2 : trace) :
  prompts (t1 ++ t2) = prompts t1 + prompts t2.
Proof.
  induction t1 as [|ev t1 IH]; [reflexivity|].
  destruct ev; cbn [prompts app]; now rewrite ?IH.
Qed.

Lemma no_prompts (t : trace) :
  Forall (fun ev => ev <> Input) t -> prompts t = 0.
Proof.
  induction 1 as [|ev t Hev _ IH]; [reflexivity|].
  destruct ev; cbn [prompts]; try exact IH. now elim Hev.
Qed.

Lemma process_voice_command_never_prompts (agent : VoiceAgent) (w : stage) :
  Forall (fun ev => ev <> Input) (snd (process_voice_command agent w)).
Proof.
  unfold process_voice_command, listen, get_llm_response.
  trace_all; discriminate.
Qed.

(* ----------------------------------------------------------------- *)
(** ** The command loop without a reply *)

Lemma no_reply_returns_None (agent : VoiceAgent) (w : stage) :
  no_reply agent w -> fst (process_voice_command agent w) = Ret PNone.
Proof.
  unfold no_reply, process_voice_command.
  destruct (listen agent w) as [[[t|]|e] tl]; cbn [fst bind].
  - intros [H | [t' [H1 H2]]]; [discriminate|].
    injection H1 as <-.
    destruct (get_llm_response agent (chat w) t) as [[v|e] tg];
      cbn [fst] in H2; [|discriminate].
    injection H2 as ->. reflexivity.
  - intros _. reflexivity.
  - intros [H | [t' [H1 _]]]; discriminate.
Qed.

Lemma loop_body_after_None (lower : str -> str) (agent : VoiceAgent) (w : stage) :
  fst (process_voice_command agent w) = Ret PNone ->
  loop_body lower agent w =
    (match confirmation w with
     | Returns _ => Ret Continue
     | Raises e => Raise e
     end,
     snd (process_voice_command agent w) ++ [Input]).
Proof.
  unfold loop_body.
  destruct (process_voice_command agent w) as [[v|e] t]; cbn [fst snd];
    intros H; [|discriminate].
  injection H as ->.
  destruct (confirmation w); reflexivity.
Qed.

(** C1, as the spec states it, fails: in a pass where nobody speaks
    ([listen] times out and returns [None]) there is no reply, and the
    loop still issues the confirmation prompt. *)
Lemma prompt_without_reply_counterexample :
  no_reply agent0 silent_stage /\
  fst (process_voice_command agent0 silent_stage) = Ret PNone /\
  List.filter is_reply_line
    (snd (loop_body lower_latin_cyrillic agent0 silent_stage)) = [] /\
  prompts (snd (loop_body lower_latin_cyrillic agent0 silent_stage)) = 1.
Proof.
  split; [left; reflexivity|].
  split; [reflexivity|].
  split; reflexivity.
Qed.

(** C1 (amended): a pass that yields no reply -- [listen] returned [None],
    or the model call returned [None] -- makes [process_voice_command]
    return [None]; the loop then does not end by itself: it issues the
    confirmation prompt, exactly once and after everything the pass
    printed, and goes on to the next pass when the prompt returns (an
    exception raised at the prompt propagates). *)
Theorem no_reply_prompts_and_continues
  (lower : str -> str) (agent : VoiceAgent) (w : stage) :
  no_reply agent w ->
  fst (process_voice_command agent w) = Ret PNone /\
  loop_body lower agent w =
    (match confirmation w with
     | Returns _ => Ret Continue
     | Raises e => Raise e
     end,
     snd (process_voice_command agent w) ++ [Input]) /\
  prompts (snd (process_voice_command agent w)) = 0.
Proof.
  intros H. pose proof (no_reply_returns_None H) as HN.
  split; [exact HN|]. split; [now apply loop_body_after_None|].
  apply no_prompts, process_voice_command_never_prompts.
Qed.

Lemma no_reply_prompts_and_continues_witness :
  no_reply agent0 silent_stage /\
  loop_body lower_latin_cyrillic agent0 silent_stage =
    (Ret Continue,
     snd (process_voice_command agent0 silent_stage) ++ [Input]).
Proof.
  split; [left; reflexivity|].
  apply (no_reply_prompts_and_continues lower_latin_cyrillic
           (agent := agent0) (w := silent_stage)).
  left; reflexivity.
Defined.

(* ----------------------------------------------------------------- *)
(** ** The exit words *)

Lemma process_voice_command_result (agent : VoiceAgent) (w : stage) (v : pyval) :
  fst (process_voice_command agent w) = Ret v ->
  v = PNone \/
  (truthy v = true /\ In (Stdout (MsgReply v)) (snd (process_voice_command agent w))).
Proof.
  unfold process_voice_command.
  destruct (listen agent w) as [[[t|]|e] tl]; cbn [bind fst snd].
  - destruct (get_llm_response agent (chat w) t) as [[r|e] tg]; cbn [bind fst snd].
    + destruct (truthy r) eqn:E; cbn [print emit ret bind fst snd].
      * intros H. injection H as <-. right. split; [exact E|].
        apply in_or_app. right. apply in_or_app. right. now left.
      * intros H. injection H as <-. now left.
    + discriminate.
  - cbn. intros H. injection H as <-. now left.
  - discriminate.
Qed.

Lemma loop_body_after_reply (lower : str -> str) (agent : VoiceAgent) (w : stage)
  (reply : str) :
  fst (process_voice_command agent w) = Ret (PStr reply) ->
  fst (loop_body lower agent w) =
    if List.existsb (fun word => contains word (lower reply)) EXIT_WORDS
    then Ret Break
    else match confirmation w with
         | Returns _ => Ret Continue
         | Raises e => Raise e
         end.
Proof.
  intros H.
  destruct (process_voice_command_result _ _ H) as [E | [E _]]; [discriminate|].
  unfold loop_body.
  destruct (process_voice_command agent w) as [[v|e] t]; cbn [fst] in H;
    [|discriminate].
  injection H as ->.
  cbn [bind]. unfold wants_exit. rewrite E. cbn [py_lower ret bind].
  destruct (List.existsb _ EXIT_WORDS); cbn [print emit ret bind fst].
  - reflexivity.
  - destruct (confirmation w); reflexivity.
Qed.

(** C2, as the spec states it, fails: the Latin word "stop" is not among
    the exit words.  The reply "stop" is presented, its lower-cased form
    contains "stop", and the loop goes on to the confirmation prompt and
    the next pass instead of ending. *)
Lemma latin_stop_counterexample :
  fst (process_voice_command agent0 stop_stage) = Ret (PStr (u "stop")) /\
  In (Stdout (MsgReply (PStr (u "stop"))))
     (snd (process_voice_command agent0 stop_stage)) /\
  contains (u "stop") (lower_latin_cyrillic (u "stop")) = true /\
  loop_body lower_latin_cyrillic agent0 stop_stage =
    (Ret Continue, snd (process_voice_command agent0 stop_stage) ++ [Input]).
Proof.
  split; [reflexivity|]. split; [vm_compute; tauto|].
  split; reflexivity.
Qed.

(** C2 (amended): for every reply string presented by the voice-mode loop,
    the loop ends if and only if the lower-cased reply contains one of the
    four exit words of the program -- "выход", "exit", "quit", "стоп"
    (Cyrillic) -- as a substring. *)
Theorem exit_iff_exit_word
  (lower : str -> str) (agent : VoiceAgent) (w : stage) (reply : str) :
  fst (process_voice_command agent w) = Ret (PStr reply) ->
  In (Stdout (MsgReply (PStr reply))) (snd (process_voice_command agent w)) /\
  (fst (loop_body lower agent w) = Ret Break <->
   exists word,
     In word [u "выход"; u "exit"; u "quit"; u "стоп"] /\
     occurs_in word (lower reply)).
Proof.
  intros H. split.
  - destruct (process_voice_command_result _ _ H) as [E | [_ E]];
      [discriminate | exact E].
  - rewrite (loop_body_after_reply lower _ _ H).
    change [u "выход"; u "exit"; u "quit"; u "стоп"] with EXIT_WORDS.
    rewrite <- existsb_contains_iff.
    destruct (List.existsb _ EXIT_WORDS).
    + tauto.
    + split; [|discriminate]. destruct (confirmation w); discriminate.
Qed.

Lemma exit_iff_exit_word_witness :
  fst (loop_body lower_latin_cyrillic agent0
         (stage_of (u "пока") (replies 200 (ok_body (PStr (u "Выход из программы"))))))
  = Ret Break.
Proof.
  apply (exit_iff_exit_word lower_latin_cyrillic agent0
           (stage_of (u "пока")
              (replies 200 (ok_body (PStr (u "Выход из программы")))))
           (reply := u "Выход из программы")).
  - vm_compute. reflexivity.
  - exists (u "выход"). split; [now left|].
    exists [], (u " из программы"). vm_compute. reflexivity.
Defined.

(* ----------------------------------------------------------------- *)
(** ** [str.replace] *)

Lemma starts_with_app (p b : str) : starts_with p (p ++ b) = true.
Proof. apply starts_with_iff. now exists b. Qed.

Lemma replace_from_skip (old new x b : str) :
  replace_from old new (List.length x) (x ++ b) = replace_from old new 0 b.
Proof.
  induction x as [|c x IH]; [reflexivity | exact IH].
Qed.

Lemma contains_false_tail (p : str) (c : N) (s : str) :
  contains p (c :: s) = false ->
  starts_with p (c :: s) = false /\ contains p s = false.
Proof. cbn [contains]. apply orb_false_iff. Qed.

(** Without an occurrence of [old], [replace] changes nothing. *)
Lemma replace_absent (old new s : str) :
  old <> [] -> contains old s = false -> replace old new s = s.
Proof.
  destruct old as [|o old]; [congruence|]. intros _.
  unfold replace. induction s as [|c s IH]; [reflexivity|].
  intros H. apply contains_false_tail in H as [H1 H2].
  cbn [replace_from]. rewrite H1, IH by exact H2. reflexivity.
Qed.

(** The leftmost occurrence of [old] is replaced by [new], and the
    replacement goes on after it. *)
Lemma replace_first (old new a b : str) :
  old <> [] -> first_at old a b ->
  replace old new (a ++ old ++ b) = a ++ new ++ replace old new b.
Proof.
  destruct old as [|o old]; [congruence|]. intros _.
  unfold replace, first_at. induction a as [|c a IH]; intros H.
  - cbn [app]. change (replace_from (o :: old) new 0 (o :: old ++ b))
      with (if starts_with (o :: old) ((o :: old) ++ b)
            then new ++ replace_from (o :: old) new (List.length old) (old ++ b)
            else o :: replace_from (o :: old) new 0 (old ++ b)).
    now rewrite starts_with_app, replace_from_skip.
  - change ((c :: a) ++ (o :: old) ++ b) with (c :: (a ++ (o :: old) ++ b)).
    cbn [replace_from].
    assert (H0 : starts_with (o :: old) (c :: a ++ (o :: old) ++ b) = false)
      by (apply (H [] (c :: a)); [reflexivity | discriminate]).
    rewrite H0, IH; [reflexivity|].
    intros a1 a2 -> Hne. apply (H (c :: a1) a2); [reflexivity | exact Hne].
Qed.

Example tags_url_default :
  tags_url DEFAULT_URL = u "http://localhost:11434/api/tags".
Proof. reflexivity. Qed.

(** A base address that ends in its only "/api": the probe address is the
    base address followed by "/tags". *)
Lemma tags_url_of_api_base (host : str) :
  first_at (u "/api") host [] ->
  tags_url (host ++ u "/api") = host ++ u "/api/tags".
Proof.
  intros H. unfold tags_url.
  replace (host ++ u "/api") with (host ++ u "/api" ++ []) by now rewrite app_nil_r.
  rewrite replace_first by (discriminate || exact H).
  cbn [app]. change (replace (u "/api") [] []) with (@nil N).
  now rewrite app_nil_r.
Qed.

(* ----------------------------------------------------------------- *)
(** ** The availability probe and construction *)

Lemma check_ollama_available_eq (self : VoiceAgent) (tags : tags_endpoint) :
  _check_ollama_available self tags =
    (match tags (tags_url (self_ollama_url self)) with
     | Returns r => Ret (status_code r =? 200)%Z
     | Raises e => if is_Exception e then Ret false else Raise e
     end,
     [HttpGet (tags_url (self_ollama_url self)) 5]).
Proof.
  unfold _check_ollama_available. fold (tags_url (self_ollama_url self)).
  cbv zeta. unfold call.
  destruct (tags (tags_url (self_ollama_url self))) as [r|e];
    cbn [bind try_except ret app]; [reflexivity|].
  destruct (is_Exception e); reflexivity.
Qed.

(** C7: whatever the base address, the probe issues exactly one request,
    a GET (timeout 5) to the address obtained from the base address by
    [replace('/api', '')] followed by "/api/tags"; it returns [True]
    if and only if the answer has status 200, and [False] when the answer
    has another status or the request raises an exception. *)
Theorem availability_probe (self : VoiceAgent) (tags : tags_endpoint) :
  let url := replace (u "/api") [] (self_ollama_url self) ++ u "/api/tags" in
  let run := _check_ollama_available self tags in
  snd run = [HttpGet url 5] /\
  gets (snd run) = [url] /\
  (fst run = Ret true <->
   exists r, tags url = Returns r /\ status_code r = 200%Z) /\
  (forall r, tags url = Returns r -> status_code r <> 200%Z ->
             fst run = Ret false) /\
  (forall e, tags url = Raises e -> is_Exception e = true ->
             fst run = Ret false).
Proof.
  cbv zeta. fold (tags_url (self_ollama_url self)).
  rewrite check_ollama_available_eq. cbn [fst snd gets].
  split; [reflexivity|]. split; [reflexivity|].
  destruct (tags (tags_url (self_ollama_url self))) as [r|e]; repeat split.
  - intros H. injection H as H. apply Z.eqb_eq in H. now exists r.
  - intros [r' [E H]]. injection E as <-. now rewrite H.
  - intros r' E H. injection E as <-.
    apply Z.eqb_neq in H. now rewrite H.
  - discriminate.
  - destruct (is_Exception e); discriminate.
  - intros [r' [E _]]. discriminate.
  - discriminate.
  - intros e' E H. injection E as <-. now rewrite H.
Qed.

Lemma availability_probe_witness :
  _check_ollama_available agent0 tags_up =
    (Ret true, [HttpGet (u "http://localhost:11434/api/tags") 5]) /\
  fst (_check_ollama_available agent0 tags_down) = Ret false.
Proof.
  pose proof (availability_probe agent0 tags_up) as Hup.
  pose proof (availability_probe agent0 tags_down) as Hdown.
  cbv zeta in Hup, Hdown.
  destruct Hup as [Ht [_ [Hiff _]]]. destruct Hdown as [_ [_ [_ [_ Hexn]]]].
  split.
  - rewrite (surjective_pairing (_check_ollama_available agent0 tags_up)).
    assert (E : fst (_check_ollama_available agent0 tags_up) = Ret true)
      by (apply Hiff; eexists; split; reflexivity).
    rewrite Ht, E. reflexivity.
  - apply (Hexn RequestsConnectionError); reflexivity.
Defined.

Lemma init_eq (env : environ) (ollama_url model : option str)
  (tags : tags_endpoint) :
  let self :=
    mk_agent mk_recognizer
      (py_or ollama_url (getenv env OLLAMA_BASE_URL DEFAULT_URL))
      (py_or model (getenv env OLLAMA_MODEL DEFAULT_MODEL)) in
  __init__ env ollama_url model tags =
    (match tags (tags_url (self_ollama_url self)) with
     | Returns r =>
         if (status_code r =? 200)%Z then Ret self
         else Raise (ConnectionError (self_ollama_url self))
     | Raises e =>
         if is_Exception e
         then Raise (ConnectionError (self_ollama_url self))
         else Raise e
     end,
     [HttpGet (tags_url (self_ollama_url self)) 5]).
Proof.
  cbv zeta. unfold __init__. rewrite check_ollama_available_eq.
  match goal with |- context [tags ?x] => destruct (tags x) as [r|e] end.
  - cbn [bind]. destruct (status_code r =? 200)%Z; reflexivity.
  - destruct (is_Exception e); reflexivity.
Qed.

(** C3: when the availability probe is negative -- the GET to the tags
    endpoint returns a status other than 200 or raises an exception, a
    connection error included -- construction raises [ConnectionError]
    right after that one request; when the probe returns status 200,
    construction succeeds with the resolved settings.  In [main] a
    negative probe ends the run with the error notice, whatever the
    stages that would have followed: the microphone and the recogniser
    are never touched. *)
Theorem construction_fails_fast
  (lower : str -> str) (env : environ) (ollama_url model : option str)
  (tags : tags_endpoint) (script : list stage) :
  let base := py_or ollama_url (getenv env OLLAMA_BASE_URL DEFAULT_URL) in
  let self :=
    mk_agent mk_recognizer base
      (py_or model (getenv env OLLAMA_MODEL DEFAULT_MODEL)) in
  let probe := replace (u "/api") [] base ++ u "/api/tags" in
  interrupted (tags probe) = false ->
  __init__ env ollama_url model tags =
    (if says_available (tags probe) then Ret self
     else Raise (ConnectionError base),
     [HttpGet probe 5]) /\
  (ollama_url = None -> model = None -> says_available (tags probe) = false ->
   fst (main lower env tags script) = Ret Returned /\
   List.filter is_audio_event (snd (main lower env tags script)) = [] /\
   List.last (snd (main lower env tags script)) Input
   = Stdout (MsgFatal (ConnectionError base))).
Proof.
  cbv zeta. fold (tags_url (py_or ollama_url (getenv env OLLAMA_BASE_URL DEFAULT_URL))).
  intros Hint. split.
  - rewrite init_eq. cbv zeta. cbn [self_ollama_url].
    destruct (tags _) as [r|e]; cbn [says_available interrupted] in *.
    + destruct (status_code r =? 200)%Z; reflexivity.
    + apply negb_false_iff in Hint. now rewrite Hint.
  - intros -> -> Hdown. unfold main. rewrite init_eq. cbv zeta.
    cbn [self_ollama_url py_or] in *.
    destruct (tags _) as [r|e]; cbn [says_available interrupted] in *.
    + rewrite Hdown. cbn. repeat split; reflexivity.
    + apply negb_false_iff in Hint. rewrite Hint. cbn. repeat split; reflexivity.
Qed.

Lemma construction_fails_fast_witness :
  __init__ no_env None None tags_down =
    (Raise (ConnectionError DEFAULT_URL),
     [HttpGet (u "http://localhost:11434/api/tags") 5]) /\
  List.filter is_audio_event
    (snd (main lower_latin_cyrillic no_env tags_down [stop_stage; silent_stage]))
  = [].
Proof.
  pose proof (construction_fails_fast lower_latin_cyrillic no_env None None
                tags_down [stop_stage; silent_stage]) as H.
  cbv zeta in H. destruct H as [Hinit Hmain]; [reflexivity|].
  split; [exact Hinit|].
  apply Hmain; reflexivity.
Defined.

(* ----------------------------------------------------------------- *)
(** ** The chat call *)

Arguments u : simpl never.

(** Runs [get_llm_response] or [test_text_to_llm] up to the answer [H] of
    the endpoint. *)
Ltac run_chat H :=
  unfold get_llm_response, test_agent.test_text_to_llm; cbv zeta;
  rewrite H; unfold call, print, emit;
  cbn [bind try_except ret raise app fst snd].

(** Follows the chat call through every answer the endpoint can give:
    status, decoding of the body, shape of the body. *)
Ltac chat_step :=
  cbn [bind try_except ret raise fst snd app py_get posts dict_lookup
       is_requests_Timeout is_requests_ConnectionError is_Exception negb];
  match goal with
  | |- context [(status_code ?r =? 200)%Z] => destruct (status_code r =? 200)%Z
  | |- context [json ?r] => destruct (json r)
  | |- context [py_get ?v _ _] => is_var v; destruct v
  | |- context [dict_lookup ?items ?k] =>
      is_var items; destruct (dict_lookup items k)
  end.

Ltac chat_cases endpoint :=
  match goal with
  | |- context [endpoint ?x ?y] => destruct (endpoint x y) as [?r|?e]
  end;
  unfold call, print, emit, json_of;
  [ repeat chat_step | ].

Lemma get_llm_response_200 (self : VoiceAgent) (endpoint : chat_endpoint)
  (text : str) (r : Response) (items m : list (str * pyval)) :
  endpoint (self_ollama_url self ++ u "/chat")
           (chat_payload (self_model self) text) = Returns r ->
  status_code r = 200%Z -> json r = Some (PDict items) ->
  match dict_lookup items (u "message") with
  | Some x => x
  | None => PDict []
  end = PDict m ->
  get_llm_response self endpoint text =
    (Ret match dict_lookup m (u "content") with
         | Some x => x
         | None => PStr NO_ANSWER
         end,
     [Stdout (MsgSending (self_model self));
      HttpPost (self_ollama_url self ++ u "/chat")
               (chat_payload (self_model self) text) 60]).
Proof.
  intros H Hs Hj Hm. run_chat H. rewrite Hs.
  cbn [Z.eqb Pos.eqb negb]. unfold json_of. rewrite Hj.
  cbn [ret bind py_get app]. rewrite Hm. reflexivity.
Qed.

(** C4, as the spec states it, fails: a 200 answer whose body is
    [{"message": null}] lacks [message.content], and the call returns
    [None] (with the error notice), not the placeholder. *)
Lemma null_message_counterexample :
  nested_content null_message_body = None /\
  get_llm_response agent0 (stub (replies 200 null_message_body)) (u "привет") =
    (Ret PNone,
     [Stdout (MsgSending DEFAULT_MODEL);
      HttpPost (u "http://localhost:11434/api/chat")
               (chat_payload DEFAULT_MODEL (u "привет")) 60;
      Stdout (MsgLlmError AttributeError)]) /\
  Ret (A := pyval) PNone <> Ret (PStr NO_ANSWER).
Proof.
  split; [reflexivity|]. split; [reflexivity | discriminate].
Qed.

(** C4 (amended): for every chat-endpoint answer with status 200 whose
    JSON body is an object in which "message" is missing, or is an object
    without "content", [get_llm_response] returns the fixed placeholder
    "Нет ответа" -- a value, not [None], and nothing is raised or
    reported; and for every 200 body with [message.content = X] it
    returns exactly [X]. *)
Theorem reply_extraction (self : VoiceAgent) (endpoint : chat_endpoint)
  (text : str) (r : Response) (body : pyval) :
  endpoint (self_ollama_url self ++ u "/chat")
           (chat_payload (self_model self) text) = Returns r ->
  status_code r = 200%Z -> json r = Some body ->
  let sent := [Stdout (MsgSending (self_model self));
               HttpPost (self_ollama_url self ++ u "/chat")
                        (chat_payload (self_model self) text) 60] in
  (content_absent body ->
   get_llm_response self endpoint text = (Ret (PStr (u "Нет ответа")), sent)) /\
  (forall X, nested_content body = Some X ->
   get_llm_response self endpoint text = (Ret X, sent)).
Proof.
  intros H Hs Hj. cbv zeta. split.
  - intros [items [-> [Hm | [m [Hm Hc]]]]].
    + rewrite (@get_llm_response_200 self endpoint text r items [] H Hs Hj);
        [reflexivity | now rewrite Hm].
    + rewrite (@get_llm_response_200 self endpoint text r items m H Hs Hj);
        [now rewrite Hc | now rewrite Hm].
  - intros X HX. unfold nested_content in HX.
    destruct body as [| | | | |?|items]; try discriminate.
    destruct (dict_lookup items (u "message")) as [[| | | | |?|m]|] eqn:Hm;
      try discriminate.
    rewrite (@get_llm_response_200 self endpoint text r items m H Hs Hj);
      [now rewrite HX | now rewrite Hm].
Qed.

Lemma reply_extraction_witness :
  get_llm_response agent0 (stub (replies 200 (ok_body (PStr (u "4")))))
    (u "посчитай два плюс два") =
  (Ret (PStr (u "4")),
   [Stdout (MsgSending DEFAULT_MODEL);
    HttpPost (u "http://localhost:11434/api/chat")
             (chat_payload DEFAULT_MODEL (u "посчитай два плюс два")) 60]) /\
  fst (get_llm_response agent0 (stub (replies 200 (PDict [])))
         (u "посчитай два плюс два")) = Ret (PStr NO_ANSWER).
Proof.
  split.
  - apply (reply_extraction agent0
             (stub (replies 200 (ok_body (PStr (u "4")))))
             (u "посчитай два плюс два")
             (r := mk_response 200 [] (Some (ok_body (PStr (u "4")))))
             (body := ok_body (PStr (u "4"))));
      reflexivity.
  - pose proof (reply_extraction agent0 (stub (replies 200 (PDict [])))
                  (u "посчитай два плюс два")
                  (r := mk_response 200 [] (Some (PDict [])))
                  (body := PDict []) eq_refl eq_refl eq_refl) as [H _].
    rewrite H; [reflexivity|].
    exists []. split; [reflexivity | now left].
Defined.

(** C5: for every chat-endpoint answer with a status other than 200,
    [get_llm_response] returns [None] and raises nothing, after printing
    the status code; the diagnostic [test_text_to_llm] prints the status
    code and then the raw body of the answer, and returns as well. *)
Theorem error_status_returns_None
  (self : VoiceAgent) (env : environ) (endpoint : chat_endpoint) (text : str)
  (ollama_url model : option str) (r : Response) :
  status_code r <> 200%Z ->
  (endpoint (self_ollama_url self ++ u "/chat")
            (chat_payload (self_model self) text) = Returns r ->
   get_llm_response self endpoint text =
     (Ret PNone,
      [Stdout (MsgSending (self_model self));
       HttpPost (self_ollama_url self ++ u "/chat")
                (chat_payload (self_model self) text) 60;
       Stdout (MsgApiError (status_code r))])) /\
  (let base := py_or ollama_url (getenv env OLLAMA_BASE_URL DEFAULT_URL) in
   let name := py_or model (getenv env OLLAMA_MODEL DEFAULT_MODEL) in
   endpoint (base ++ u "/chat") (chat_payload name text) = Returns r ->
   test_agent.test_text_to_llm env endpoint text ollama_url model =
     (Ret tt,
      [Stdout (MsgQuery text);
       Stdout (MsgSending name);
       HttpPost (base ++ u "/chat") (chat_payload name text) 60;
       Stdout (MsgApiError (status_code r));
       Stdout (MsgBody (body_text r))])).
Proof.
  intros Hs. apply Z.eqb_neq in Hs. split.
  - intros H. run_chat H. rewrite Hs. reflexivity.
  - cbv zeta. intros H. run_chat H. rewrite Hs. reflexivity.
Qed.

Lemma error_status_returns_None_witness :
  let r := mk_response 500 (u "internal error") None in
  get_llm_response agent0 (stub (Returns r)) (u "скажи анекдот") =
    (Ret PNone,
     [Stdout (MsgSending DEFAULT_MODEL);
      HttpPost (u "http://localhost:11434/api/chat")
               (chat_payload DEFAULT_MODEL (u "скажи анекдот")) 60;
      Stdout (MsgApiError 500)]) /\
  List.last (snd (test_agent.test_text_to_llm no_env (stub (Returns r))
                    (u "скажи анекдот") None None)) Input
  = Stdout (MsgBody (u "internal error")).
Proof.
  cbv zeta.
  pose proof (error_status_returns_None agent0 no_env
                (stub (Returns (mk_response 500 (u "internal error") None)))
                (u "скажи анекдот") None None
                (mk_response 500 (u "internal error") None)) as H.
  destruct H as [Hvoice Htest]; [discriminate|].
  split.
  - apply Hvoice. reflexivity.
  - cbv zeta in Htest. rewrite Htest; reflexivity.
Defined.

(* ----------------------------------------------------------------- *)
(** ** An empty reply *)

Lemma get_llm_response_content (self : VoiceAgent) (endpoint : chat_endpoint)
  (text : str) (r : Response) (body X : pyval) :
  endpoint (self_ollama_url self ++ u "/chat")
           (chat_payload (self_model self) text) = Returns r ->
  status_code r = 200%Z -> json r = Some body ->
  nested_content body = Some X ->
  get_llm_response self endpoint text =
    (Ret X,
     [Stdout (MsgSending (self_model self));
      HttpPost (self_ollama_url self ++ u "/chat")
               (chat_payload (self_model self) text) 60]).
Proof.
  intros H Hs Hj HX. unfold nested_content in HX.
  destruct body as [| | | | |?|items]; try discriminate.
  destruct (dict_lookup items (u "message")) as [[| | | | |?|m]|] eqn:Hm;
    try discriminate.
  rewrite (@get_llm_response_200 self endpoint text r items m H Hs Hj);
    [now rewrite HX | now rewrite Hm].
Qed.

(** C10: when the chat endpoint answers 200 with [message.content]
    present and equal to the empty string, [get_llm_response] returns the
    empty string; [process_voice_command] then takes the pass for a failed
    one: it returns [None] and prints no reply block. *)
Theorem empty_reply_is_dropped
  (self : VoiceAgent) (w : stage) (text : str) (r : Response) (body : pyval) :
  fst (listen self w) = Ret (Some text) ->
  chat w (self_ollama_url self ++ u "/chat")
         (chat_payload (self_model self) text) = Returns r ->
  status_code r = 200%Z -> json r = Some body ->
  nested_content body = Some (PStr []) ->
  fst (get_llm_response self (chat w) text) = Ret (PStr []) /\
  fst (process_voice_command self w) = Ret PNone /\
  List.filter is_reply_line (snd (process_voice_command self w)) = [].
Proof.
  intros Hl H Hs Hj Hc.
  pose proof (@get_llm_response_content self (chat w) text r body (PStr [])
                H Hs Hj Hc) as HX.
  split; [now rewrite HX|].
  unfold process_voice_command.
  destruct (listen self w) as [o tl] eqn:El. cbn [fst] in Hl. subst o.
  cbn [bind]. rewrite HX. cbn [bind truthy ret fst snd app].
  split; [reflexivity|].
  assert (Hall : Forall (fun ev => is_reply_line ev = false) (snd (listen self w))).
  { unfold listen. trace_all; reflexivity. }
  rewrite El in Hall. cbn [snd] in Hall.
  rewrite filter_app. cbn [List.filter is_reply_line app].
  rewrite app_nil_r. clear -Hall.
  induction Hall as [|ev t Hev _ IH]; [reflexivity|].
  cbn [List.filter]. now rewrite Hev.
Qed.

Lemma empty_reply_is_dropped_witness :
  let w := stage_of (u "молчи") (replies 200 (ok_body (PStr []))) in
  fst (get_llm_response agent0 (chat w) (u "молчи")) = Ret (PStr []) /\
  fst (process_voice_command agent0 w) = Ret PNone /\
  List.filter is_reply_line (snd (process_voice_command agent0 w)) = [].
Proof.
  cbv zeta.
  apply (empty_reply_is_dropped agent0
           (stage_of (u "молчи") (replies 200 (ok_body (PStr []))))
           (text := u "молчи")
           (r := mk_response 200 [] (Some (ok_body (PStr []))))
           (body := ok_body (PStr [])));
    reflexivity.
Defined.

(* ----------------------------------------------------------------- *)
(** ** Settings *)

Lemma py_or_getenv_resolves (override : option str) (env : environ)
  (key default : str) :
  resolves_to override (env key) default (py_or override (getenv env key default)).
Proof.
  unfold resolves_to, not_given, getenv. repeat split.
  - intros s -> Hs. destruct s; [congruence | reflexivity].
  - intros v [-> | ->] ->; reflexivity.
  - intros [-> | ->] ->; reflexivity.
Qed.

Lemma posts_app (t1 t2 : trace) : posts (t1 ++ t2) = posts t1 ++ posts t2.
Proof.
  induction t1 as [|ev t1 IH]; [reflexivity|].
  destruct ev; cbn [posts app]; now rewrite ?IH.
Qed.

Lemma Forall_posts (Q : str * chat_request -> Prop) (t : trace) :
  Forall (fun ev => match ev with
                    | HttpPost url payload _ => Q (url, payload)
                    | _ => True
                    end) t ->
  Forall Q (posts t).
Proof.
  induction 1 as [|ev t Hev _ IH]; [constructor|].
  destruct ev; cbn [posts]; try exact IH. now constructor.
Qed.

Lemma test_text_to_llm_posts (env : environ) (endpoint : chat_endpoint)
  (text : str) (ollama_url model : option str) :
  posts (snd (test_agent.test_text_to_llm env endpoint text ollama_url model))
  = [chat_call (py_or ollama_url (getenv env OLLAMA_BASE_URL DEFAULT_URL))
               (py_or model (getenv env OLLAMA_MODEL DEFAULT_MODEL)) text].
Proof.
  unfold test_agent.test_text_to_llm, chat_call. cbv zeta.
  chat_cases endpoint; try reflexivity.
  destruct e; reflexivity.
Qed.

(** Every chat request of the loop carries the agent's two settings. *)
Lemma loop_posts_use_settings (lower : str -> str) (agent : VoiceAgent)
  (script : list stage) :
  Forall (fun p => fst p = self_ollama_url agent ++ u "/chat" /\
                   req_model (snd p) = self_model agent)
         (posts (snd (while_true (loop_body lower agent) script))).
Proof.
  apply Forall_posts.
  induction script as [|w script IH]; cbn [while_true]; [constructor|].
  apply all_bind.
  - unfold loop_body, wants_exit, py_lower, process_voice_command, listen,
      get_llm_response.
    trace_all; solve [exact I | split; reflexivity].
  - intros [|]; [exact IH | constructor].
Qed.

(** C6, as the spec states it, fails: an override that is given as the
    empty string does not win.  With no environment value the resolved
    base address and model are the defaults, not the overrides. *)
Lemma empty_override_counterexample :
  fst (__init__ no_env (Some []) (Some []) tags_up) = Ret agent0 /\
  self_ollama_url agent0 = u "http://localhost:11434/api" /\
  self_model agent0 = u "llama3.2" /\
  self_ollama_url agent0 <> [] /\ self_model agent0 <> [].
Proof.
  repeat split; try reflexivity; discriminate.
Qed.

(** C6 (amended): the resolved base address and the resolved model each
    equal the constructor override when it is given and not empty,
    otherwise the value of the environment variable when that is set,
    otherwise the default ("http://localhost:11434/api", "llama3.2");
    [test_text_to_llm] resolves its two arguments the same way.  The agent
    is resolved once, at construction: every chat request of the command
    loop that follows goes to the resolved base address with the resolved
    model. *)
Theorem settings_resolution
  (lower : str -> str) (env : environ) (ollama_url model : option str)
  (tags : tags_endpoint) (agent : VoiceAgent)
  (script : list stage) (endpoint : chat_endpoint) (text : str) :
  fst (__init__ env ollama_url model tags) = Ret agent ->
  resolves_to ollama_url (env (u "OLLAMA_BASE_URL"))
              (u "http://localhost:11434/api") (self_ollama_url agent) /\
  resolves_to model (env (u "OLLAMA_MODEL")) (u "llama3.2") (self_model agent) /\
  Forall (fun p => fst p = self_ollama_url agent ++ u "/chat" /\
                   req_model (snd p) = self_model agent)
         (posts (snd (while_true (loop_body lower agent) script))) /\
  posts (snd (test_agent.test_text_to_llm env endpoint text ollama_url model))
  = [chat_call (self_ollama_url agent) (self_model agent) text].
Proof.
  intros H. rewrite init_eq in H. cbv zeta in H. cbn [fst self_ollama_url] in H.
  assert (agent = mk_agent mk_recognizer
            (py_or ollama_url (getenv env OLLAMA_BASE_URL DEFAULT_URL))
            (py_or model (getenv env OLLAMA_MODEL DEFAULT_MODEL))) as ->.
  { destruct (tags _) as [r|e].
    - destruct (status_code r =? 200)%Z; [now injection H | discriminate].
    - destruct (is_Exception e); discriminate. }
  cbn [self_ollama_url self_model].
  unfold OLLAMA_BASE_URL, OLLAMA_MODEL, DEFAULT_URL, DEFAULT_MODEL.
  split; [exact (py_or_getenv_resolves ollama_url env (u "OLLAMA_BASE_URL")
                   (u "http://localhost:11434/api"))|].
  split; [exact (py_or_getenv_resolves model env (u "OLLAMA_MODEL")
                   (u "llama3.2"))|].
  split; [apply (loop_posts_use_settings lower
                   (mk_agent mk_recognizer _ _) script)|].
  apply test_text_to_llm_posts.
Qed.

Lemma settings_resolution_witness :
  let env : environ :=
    fun key => if str_eqb key (u "OLLAMA_MODEL") then Some (u "mistral") else None in
  let agent :=
    mk_agent mk_recognizer (u "http://10.0.0.7:11434/api") (u "mistral") in
  fst (__init__ env (Some (u "http://10.0.0.7:11434/api")) None tags_up)
  = Ret agent /\
  resolves_to (Some (u "http://10.0.0.7:11434/api")) (env (u "OLLAMA_BASE_URL"))
              (u "http://localhost:11434/api") (self_ollama_url agent) /\
  resolves_to None (env (u "OLLAMA_MODEL")) (u "llama3.2") (self_model agent).
Proof.
  cbv zeta.
  assert (Hinit :
    fst (__init__
           (fun key => if str_eqb key (u "OLLAMA_MODEL")
                       then Some (u "mistral") else None)
           (Some (u "http://10.0.0.7:11434/api")) None tags_up)
    = Ret (mk_agent mk_recognizer (u "http://10.0.0.7:11434/api") (u "mistral")))
    by (vm_compute; reflexivity).
  split; [exact Hinit|].
  destruct (settings_resolution lower_latin_cyrillic _ _ _ _
              [silent_stage; stop_stage] (stub (Raises ReadTimeout)) []
              Hinit) as [Hurl [Hmodel _]].
  split; [exact Hurl | exact Hmodel].
Defined.

(* ----------------------------------------------------------------- *)
(** ** The chat request *)

Lemma get_llm_response_posts_once (self : VoiceAgent) (endpoint : chat_endpoint)
  (text : str) :
  posts (snd (get_llm_response self endpoint text))
  = [chat_call (self_ollama_url self) (self_model self) text] /\
  (interrupted (endpoint (self_ollama_url self ++ u "/chat")
                         (chat_payload (self_model self) text)) = false ->
   exists v, fst (get_llm_response self endpoint text) = Ret v).
Proof.
  unfold get_llm_response, chat_call. cbv zeta.
  chat_cases endpoint.
  all: try (split; [reflexivity | intros _; eexists; reflexivity]).
  destruct e; (split; [reflexivity | intros H; try discriminate H;
                                     eexists; reflexivity]).
Qed.

(* ----------------------------------------------------------------- *)
(** ** The diagnostic run *)

Lemma result_blocks_app (t1 t2 : trace) :
  result_blocks (t1 ++ t2) = result_blocks t1 + result_blocks t2.
Proof. unfold result_blocks. now rewrite filter_app, length_app. Qed.

(** One diagnostic query: whatever the endpoint answers, short of an
    interrupt, the function returns, having posted one request and printed
    one result. *)
Lemma test_text_to_llm_run (env : environ) (endpoint : chat_endpoint)
  (text : str) (ollama_url model : option str) :
  let base := py_or ollama_url (getenv env OLLAMA_BASE_URL DEFAULT_URL) in
  let name := py_or model (getenv env OLLAMA_MODEL DEFAULT_MODEL) in
  let run := test_agent.test_text_to_llm env endpoint text ollama_url model in
  interrupted (endpoint (base ++ u "/chat") (chat_payload name text)) = false ->
  fst run = Ret tt /\
  posts (snd run) = [chat_call base name text] /\
  result_blocks (snd run) = 1 /\
  prompts (snd run) = 0.
Proof.
  cbv zeta. unfold test_agent.test_text_to_llm, chat_call. cbv zeta.
  chat_cases endpoint.
  all: try (intros _; repeat split; reflexivity).
  destruct e; intros H; try discriminate H; repeat split; reflexivity.
Qed.

Lemma test_block_eq (env : environ) (endpoint : nat -> chat_endpoint)
  (i : nat) (query : str) :
  fst (test_agent.test_text_to_llm env (endpoint i) query None None) = Ret tt ->
  test_agent.test_block env endpoint (i, query) =
    (Ret tt, block_trace env endpoint i query).
Proof.
  unfold test_agent.test_block, block_trace.
  destruct (test_agent.test_text_to_llm env (endpoint i) query None None)
    as [[[]|e] t]; cbn [fst snd]; intros H; [|discriminate].
  reflexivity.
Qed.

Lemma block_trace_facts (env : environ) (endpoint : nat -> chat_endpoint)
  (i : nat) (q : str) :
  interrupted (endpoint i
                 (getenv env OLLAMA_BASE_URL DEFAULT_URL ++ u "/chat")
                 (chat_payload (getenv env OLLAMA_MODEL DEFAULT_MODEL) q))
  = false ->
  fst (test_agent.test_text_to_llm env (endpoint i) q None None) = Ret tt /\
  posts (block_trace env endpoint i q) =
    [chat_call (getenv env OLLAMA_BASE_URL DEFAULT_URL)
               (getenv env OLLAMA_MODEL DEFAULT_MODEL) q] /\
  result_blocks (block_trace env endpoint i q) = 1 /\
  prompts (block_trace env endpoint i q) = 0.
Proof.
  intros Hint.
  destruct (test_text_to_llm_run env (endpoint i) q None None Hint)
    as [Hf [Hp [Hr Hn]]].
  split; [exact Hf|]. unfold block_trace.
  rewrite !posts_app, !result_blocks_app, !prompts_app, Hp, Hr, Hn.
  repeat split; reflexivity.
Qed.

Lemma enumerate_test_queries :
  enumerate test_agent.test_queries 1 =
    [ (1, u "посчитай два плюс два");
      (2, u "дай определение искусственного интеллекта в одном предложении");
      (3, u "скажи короткий анекдот") ].
Proof. reflexivity. Qed.

Lemma three_blocks (b0 b1 b2 b3 : trace) :
  (Ret tt, b0) ;;; (Ret tt, b1) ;;; (Ret tt, b2) ;;; (Ret tt, b3) ;;; ret tt
  = (Ret tt, b0 ++ b1 ++ b2 ++ b3).
Proof. cbn [bind ret]. now rewrite app_nil_r. Qed.

Lemma test_main_eq (env : environ) (endpoint : nat -> chat_endpoint) :
  (forall i q,
     fst (test_agent.test_text_to_llm env (endpoint i) q None None) = Ret tt) ->
  test_agent.main env endpoint =
    (Ret tt,
     [Stdout (MsgBanner (getenv env OLLAMA_BASE_URL DEFAULT_URL)
                        (getenv env OLLAMA_MODEL DEFAULT_MODEL));
      Stdout MsgBlank] ++
     block_trace env endpoint 1 (u "посчитай два плюс два") ++
     block_trace env endpoint 2
       (u "дай определение искусственного интеллекта в одном предложении") ++
     block_trace env endpoint 3 (u "скажи короткий анекдот")).
Proof.
  intros Hrun. unfold test_agent.main.
  rewrite enumerate_test_queries. cbn [for_each].
  rewrite !test_block_eq by apply Hrun.
  rewrite <- three_blocks. reflexivity.
Qed.

(** C8: the diagnostic program runs its three literal queries in order.
    For every answer of the endpoint to each of them -- success, error
    status, undecodable or misshapen body, connection failure, timeout,
    any other exception -- each query posts one chat request and prints
    one block holding one result, the program returns normally after the
    third, and the confirmation prompt is never issued; no answer ends
    the sequence early. *)
Theorem diagnostic_run (env : environ) (endpoint : nat -> chat_endpoint) :
  (forall i url payload, interrupted (endpoint i url payload) = false) ->
  let base := getenv env (u "OLLAMA_BASE_URL") (u "http://localhost:11434/api") in
  let name := getenv env (u "OLLAMA_MODEL") (u "llama3.2") in
  let q1 := u "посчитай два плюс два" in
  let q2 := u "дай определение искусственного интеллекта в одном предложении" in
  let q3 := u "скажи короткий анекдот" in
  test_agent.main env endpoint =
    (Ret tt,
     [Stdout (MsgBanner base name); Stdout MsgBlank] ++
     block_trace env endpoint 1 q1 ++
     block_trace env endpoint 2 q2 ++
     block_trace env endpoint 3 q3) /\
  (forall i q, posts (block_trace env endpoint i q) = [chat_call base name q] /\
               result_blocks (block_trace env endpoint i q) = 1 /\
               prompts (block_trace env endpoint i q) = 0) /\
  posts (snd (test_agent.main env endpoint)) =
    [chat_call base name q1; chat_call base name q2; chat_call base name q3] /\
  result_blocks (snd (test_agent.main env endpoint)) = 3 /\
  prompts (snd (test_agent.main env endpoint)) = 0.
Proof.
  intros Hint. cbv zeta.
  pose proof (fun i q => block_trace_facts env endpoint i q (Hint i _ _)) as Hb.
  pose proof (test_main_eq env endpoint (fun i q => proj1 (Hb i q))) as Hmain.
  unfold OLLAMA_BASE_URL, OLLAMA_MODEL, DEFAULT_URL, DEFAULT_MODEL in Hb, Hmain.
  split; [exact Hmain|].
  split; [intros i q; apply Hb|].
  rewrite Hmain.
  change (snd (?r, ?t)) with t.
  rewrite !posts_app, !result_blocks_app, !prompts_app.
  destruct (Hb 1 (u "посчитай два плюс два")) as [_ [E1 [R1 N1]]].
  destruct (Hb 2 (u "дай определение искусственного интеллекта в одном предложении"))
    as [_ [E2 [R2 N2]]].
  destruct (Hb 3 (u "скажи короткий анекдот")) as [_ [E3 [R3 N3]]].
  cbn [fst snd] in *.
  rewrite E1, E2, E3, R1, R2, R3, N1, N2, N3.
  repeat split; reflexivity.
Qed.

Lemma diagnostic_run_witness :
  fst (test_agent.main no_env mixed_endpoint) = Ret tt /\
  List.length (posts (snd (test_agent.main no_env mixed_endpoint))) = 3 /\
  result_blocks (snd (test_agent.main no_env mixed_endpoint)) = 3 /\
  prompts (snd (test_agent.main no_env mixed_endpoint)) = 0.
Proof.
  assert (Hint : forall i url payload,
            interrupted (mixed_endpoint i url payload) = false)
    by (intros [|[|[|i]]] url payload; reflexivity).
  destruct (diagnostic_run no_env mixed_endpoint Hint)
    as [Hmain [_ [Hposts [Hres Hprompt]]]].
  split; [now rewrite Hmain|].
  split; [now rewrite Hposts|].
  split; [exact Hres | exact Hprompt].
Defined.

(* ================================================================= *)
(** * Further properties of the two programs *)

(* ----------------------------------------------------------------- *)
(** ** Listening *)

Lemma count_app (p : event -> bool) (t1 t2 : trace) :
  count p (t1 ++ t2) = count p t1 + count p t2.
Proof. unfold count. now rewrite filter_app, length_app. Qed.

Lemma count_none (p : event -> bool) (t : trace) :
  Forall (fun ev => p ev = false) t -> count p t = 0.
Proof.
  unfold count. induction 1 as [|ev t Hev _ IH]; [reflexivity|].
  cbn [List.filter]. now rewrite Hev.
Qed.

Lemma listen_eq (self : VoiceAgent) (w : stage) :
  listen self w =
    match microphone w with
    | Raises e => (Raise e, [Stdout MsgSpeak])
    | Returns _ =>
        match calibration w with
        | Raises e =>
            (Raise e,
             [Stdout MsgSpeak; MicOpen; AdjustForAmbientNoise (1 # 2)%Q;
              MicClose])
        | Returns _ =>
            (match attempt w with
             | Returns t => Ret (Some t)
             | Raises e => if listen_handles e then Ret None else Raise e
             end,
             [Stdout MsgSpeak; MicOpen; AdjustForAmbientNoise (1 # 2)%Q;
              Listen 5 10] ++
             match capture w with
             | Returns audio =>
                 [Stdout MsgProcessing; RecognizeGoogle audio (u "ru-RU")] ++
                 match recognition w audio with
                 | Returns t => [Stdout (MsgRecognized t)]
                 | Raises WaitTimeoutError => [Stdout MsgWaitTimeout]
                 | Raises UnknownValueError => [Stdout MsgUnrecognized]
                 | Raises (RequestError m) =>
                     [Stdout (MsgRecognitionError (RequestError m))]
                 | Raises _ => []
                 end
             | Raises WaitTimeoutError => [Stdout MsgWaitTimeout]
             | Raises UnknownValueError => [Stdout MsgUnrecognized]
             | Raises (RequestError m) =>
                 [Stdout (MsgRecognitionError (RequestError m))]
             | Raises _ => []
             end ++ [MicClose])
        end
    end.
Proof.
  unfold listen, attempt, with_resource, call, print, emit.
  destruct (microphone w) as [x|e]; [|reflexivity].
  destruct (calibration w) as [y|e]; [|reflexivity].
  destruct (capture w) as [audio|e].
  - cbn [bind try_except ret raise app fst snd].
    destruct (recognition w audio) as [t|e];
      [reflexivity | destruct e; reflexivity].
  - destruct e; reflexivity.
Qed.

Lemma listen_fst (self : VoiceAgent) (w : stage) :
  fst (listen self w) =
    match setup w with
    | Raises e => Raise e
    | Returns _ =>
        match attempt w with
        | Returns t => Ret (Some t)
        | Raises e => if listen_handles e then Ret None else Raise e
        end
    end.
Proof.
  rewrite listen_eq. unfold setup.
  destruct (microphone w) as [x|e]; [|reflexivity].
  destruct (calibration w) as [y|e]; reflexivity.
Qed.

Lemma listen_mic_counts (self : VoiceAgent) (w : stage) :
  count is_mic_open (snd (listen self w)) =
  count is_mic_close (snd (listen self w)) /\
  count is_mic_open (snd (listen self w)) <= 1.
Proof.
  rewrite listen_eq.
  destruct (microphone w) as [x|e]; [|split; vm_compute; lia].
  destruct (calibration w) as [y|e]; [|split; vm_compute; lia].
  cbn [snd].
  destruct (capture w) as [audio|e];
    [destruct (recognition w audio) as [t|e]|];
    try destruct e; split; vm_compute; lia.
Qed.

(** A machine with no sound input: [listen] raises right after the
    invitation to speak, and the microphone is neither opened nor
    closed. *)
Example listen_without_microphone :
  listen agent0 deaf_stage
  = (Raise (OtherException (u "OSError")), [Stdout MsgSpeak]).
Proof. vm_compute. reflexivity. Qed.

(** The measurement of the noise fails: the microphone, which was
    opened, is closed, and the exception leaves [listen]. *)
Example listen_calibration_fails :
  listen agent0 noisy_stage
  = (Raise (OtherException (u "OSError")),
     [Stdout MsgSpeak; MicOpen; AdjustForAmbientNoise (1 # 2)%Q; MicClose]).
Proof. vm_compute. reflexivity. Qed.





(* ----------------------------------------------------------------- *)
(** ** One pass: at most one request *)

Lemma posts_none (t : trace) :
  Forall (fun ev => match ev with HttpPost _ _ _ => False | _ => True end) t ->
  posts t = [].
Proof.
  intros H. apply (Forall_posts (fun _ => False)) in H.
  destruct (posts t); [reflexivity | now inversion H].
Qed.

Lemma listen_posts_nothing (self : VoiceAgent) (w : stage) :
  posts (snd (listen self w)) = [].
Proof. apply posts_none. unfold listen. trace_all; exact I. Qed.

Lemma process_voice_command_posts (self : VoiceAgent) (w : stage) :
  posts (snd (process_voice_command self w)) =
    match heard w with
    | Returns t => [chat_call (self_ollama_url self) (self_model self) t]
    | Raises _ => []
    end.
Proof.
  unfold process_voice_command. rewrite snd_bind, posts_app, listen_posts_nothing.
  rewrite listen_fst. unfold heard. cbn [app].
  destruct (setup w) as [x|e]; [|reflexivity].
  destruct (attempt w) as [t|e].
  - rewrite snd_bind, posts_app.
    destruct (get_llm_response_posts_once self (chat w) t) as [-> _].
    destruct (fst (get_llm_response self (chat w) t)) as [v|e];
      [destruct (truthy v)|]; reflexivity.
  - destruct (listen_handles e); reflexivity.
Qed.


(* ----------------------------------------------------------------- *)
(** ** The chat call: what goes wrong *)

(** X4: [get_llm_response] never lets an exception of class [Exception]
    out.  When the request raises a timeout of [requests] (connect or
    read) it prints the timeout notice; when it raises any other
    [Exception] it prints the error notice naming it; in both cases it
    returns [None].  What it lets through is not an [Exception] and is
    what the request raised. *)
Theorem get_llm_response_absorbs_errors
  (self : VoiceAgent) (endpoint : chat_endpoint) (text : str) :
  let answer := endpoint (self_ollama_url self ++ u "/chat")
                         (chat_payload (self_model self) text) in
  (forall e, fst (get_llm_response self endpoint text) = Raise e ->
             is_Exception e = false /\ answer = Raises e) /\
  (forall e, answer = Raises e -> is_requests_Timeout e = true ->
             get_llm_response self endpoint text =
               (Ret PNone, sent self text ++ [Stdout MsgLlmTimeout])) /\
  (forall e, answer = Raises e -> is_requests_Timeout e = false ->
             is_Exception e = true ->
             get_llm_response self endpoint text =
               (Ret PNone, sent self text ++ [Stdout (MsgLlmError e)])).
Proof.
  cbv zeta. unfold sent. split; [|split].
  - intros e. unfold get_llm_response. cbv zeta.
    chat_cases endpoint; try discriminate.
    destruct e0; cbn [is_requests_Timeout is_Exception bind try_except
                      ret raise fst snd app]; try discriminate.
    intros H. injection H as <-. now split.
  - intros e H Ht. run_chat H. rewrite Ht. reflexivity.
  - intros e H Ht He. run_chat H. rewrite Ht, He. reflexivity.
Qed.

(** X5: A 200 answer that cannot be used: when the body is not JSON, when
    the decoded body is not an object, and when its "message" is there
    but is not an object, [get_llm_response] prints the error notice (a
    decoding error in the first case, a missing [get] in the other two)
    and returns [None]. *)
Theorem unusable_body_gives_None
  (self : VoiceAgent) (endpoint : chat_endpoint) (text : str) (r : Response) :
  endpoint (self_ollama_url self ++ u "/chat")
           (chat_payload (self_model self) text) = Returns r ->
  status_code r = 200%Z ->
  (json r = None ->
   get_llm_response self endpoint text =
     (Ret PNone, sent self text ++ [Stdout (MsgLlmError JSONDecodeError)])) /\
  (forall body, json r = Some body -> (forall items, body <> PDict items) ->
   get_llm_response self endpoint text =
     (Ret PNone, sent self text ++ [Stdout (MsgLlmError AttributeError)])) /\
  (forall items m, json r = Some (PDict items) ->
   dict_lookup items (u "message") = Some m -> (forall d, m <> PDict d) ->
   get_llm_response self endpoint text =
     (Ret PNone, sent self text ++ [Stdout (MsgLlmError AttributeError)])).
Proof.
  intros H Hs. unfold sent. split; [|split].
  - intros Hj. run_chat H. rewrite Hs. unfold json_of. rewrite Hj. reflexivity.
  - intros body Hj Hb. run_chat H. rewrite Hs. unfold json_of. rewrite Hj.
    destruct body; try reflexivity. now elim (Hb items).
  - intros items m Hj Hm Hd. run_chat H. rewrite Hs. unfold json_of.
    rewrite Hj. cbn [Z.eqb Pos.eqb negb bind ret py_get app]. rewrite Hm.
    destruct m; try reflexivity. now elim (Hd items0).
Qed.

Lemma unusable_body_gives_None_witness :
  get_llm_response agent0 (stub (replies 200 (PList []))) (u "привет") =
    (Ret PNone,
     sent agent0 (u "привет") ++ [Stdout (MsgLlmError AttributeError)]).
Proof.
  destruct (unusable_body_gives_None agent0 (stub (replies 200 (PList [])))
              (u "привет") (r := mk_response 200 [] (Some (PList [])))
              eq_refl eq_refl) as [_ [H _]].
  apply (H (PList [])); [reflexivity | discriminate].
Defined.

(** X6: The diagnostic call sorts the exceptions differently: a connection
    error of [requests] -- a connect timeout is one -- gives the two
    lines "cannot connect" and "start the service"; any other
    [Exception], a read timeout included, gives the general error line.
    The function returns in all these cases. *)
Theorem test_text_to_llm_absorbs_errors
  (env : environ) (endpoint : chat_endpoint) (text : str)
  (ollama_url model : option str) (e : exn) :
  let base := py_or ollama_url (getenv env OLLAMA_BASE_URL DEFAULT_URL) in
  let name := py_or model (getenv env OLLAMA_MODEL DEFAULT_MODEL) in
  let before :=
    [Stdout (MsgQuery text); Stdout (MsgSending name);
     HttpPost (base ++ u "/chat") (chat_payload name text) 60] in
  endpoint (base ++ u "/chat") (chat_payload name text) = Raises e ->
  is_Exception e = true ->
  test_agent.test_text_to_llm env endpoint text ollama_url model =
    (Ret tt,
     before ++
     if is_requests_ConnectionError e
     then [Stdout (MsgCannotConnect base); Stdout MsgStartHint]
     else [Stdout (MsgError e)]).
Proof.
  cbv zeta. intros H He. run_chat H.
  destruct (is_requests_ConnectionError e); [reflexivity|].
  rewrite He. reflexivity.
Qed.

Lemma test_text_to_llm_absorbs_errors_witness :
  test_agent.test_text_to_llm no_env (stub (Raises ConnectTimeout))
    (u "привет") None None =
  (Ret tt,
   [Stdout (MsgQuery (u "привет")); Stdout (MsgSending DEFAULT_MODEL);
    HttpPost (DEFAULT_URL ++ u "/chat")
             (chat_payload DEFAULT_MODEL (u "привет")) 60;
    Stdout (MsgCannotConnect DEFAULT_URL); Stdout MsgStartHint]) /\
  snd (get_llm_response agent0 (stub (Raises ConnectTimeout)) (u "привет")) =
    sent agent0 (u "привет") ++ [Stdout MsgLlmTimeout].
Proof.
  split.
  - apply (test_text_to_llm_absorbs_errors no_env
             (stub (Raises ConnectTimeout)) (u "привет") None None
             (e := ConnectTimeout)); reflexivity.
  - vm_compute. reflexivity.
Defined.

(* ----------------------------------------------------------------- *)
(** ** The loop, pass after pass *)

Lemma wants_exit_silent (lower : str -> str) (v : pyval) :
  snd (wants_exit lower v) = [].
Proof.
  unfold wants_exit. destruct (truthy v); [|reflexivity].
  destruct v; reflexivity.
Qed.

Lemma loop_body_eq (lower : str -> str) (agent : VoiceAgent) (w : stage) :
  loop_body lower agent w =
    match fst (process_voice_command agent w) with
    | Raise e => (Raise e, snd (process_voice_command agent w))
    | Ret v =>
        match fst (wants_exit lower v) with
        | Raise e => (Raise e, snd (process_voice_command agent w))
        | Ret true =>
            (Ret Break,
             snd (process_voice_command agent w) ++ [Stdout MsgGoodbye])
        | Ret false =>
            (match confirmation w with
             | Returns _ => Ret Continue
             | Raises e => Raise e
             end,
             snd (process_voice_command agent w) ++ [Input])
        end
    end.
Proof.
  unfold loop_body.
  destruct (process_voice_command agent w) as [[v|e] t]; cbn [bind fst snd];
    [|reflexivity].
  pose proof (wants_exit_silent lower v) as Hs.
  destruct (wants_exit lower v) as [[[|]|e] t']; cbn [fst snd] in *; subst t'.
  - reflexivity.
  - destruct (confirmation w); reflexivity.
  - cbn [bind]. now rewrite app_nil_r.
Qed.

(** X7: A reply that is not a string but counts as true -- a number, a list,
    an object -- is presented and then ends the session: lower-casing it
    fails, the pass raises [AttributeError] without a goodbye and without
    the prompt, no further stage is run, and [main] closes with the
    error notice. *)
Theorem non_string_reply_ends_session
  (lower : str -> str) (env : environ) (tags : tags_endpoint)
  (agent : VoiceAgent) (w : stage) (rest : list stage) (v : pyval) :
  fst (process_voice_command agent w) = Ret v ->
  v <> PNone -> (forall s, v <> PStr s) ->
  In (Stdout (MsgReply v)) (snd (process_voice_command agent w)) /\
  while_true (loop_body lower agent) (w :: rest) =
    (Raise AttributeError, snd (process_voice_command agent w)) /\
  (__init__ env None None tags = (Ret agent, snd (__init__ env None None tags)) ->
   main lower env tags (w :: rest) =
     (Ret Returned,
      [Stdout (MsgBanner (getenv env OLLAMA_BASE_URL DEFAULT_URL)
                         (getenv env OLLAMA_MODEL DEFAULT_MODEL))] ++
      snd (__init__ env None None tags) ++
      snd (process_voice_command agent w) ++
      [Stdout (MsgFatal AttributeError)])).
Proof.
  intros Hv Hn Hs.
  destruct (process_voice_command_result _ _ Hv) as [E | [Ht Hin]]; [congruence|].
  assert (Hbody : loop_body lower agent w =
                  (Raise AttributeError, snd (process_voice_command agent w))).
  { rewrite loop_body_eq, Hv. unfold wants_exit. rewrite Ht.
    destruct v; try reflexivity. now elim (Hs s). }
  assert (Hloop : while_true (loop_body lower agent) (w :: rest) =
                  (Raise AttributeError, snd (process_voice_command agent w))).
  { cbn [while_true]. rewrite Hbody. reflexivity. }
  split; [exact Hin|]. split; [exact Hloop|].
  intros Hinit. unfold main. rewrite Hinit.
  cbn [bind]. rewrite Hloop. unfold print, emit.
  cbn [bind try_except ret fst snd app]. now rewrite <- app_assoc.
Qed.

Lemma non_string_reply_ends_session_witness :
  fst (main lower_latin_cyrillic no_env tags_up [number_stage; plain_stage])
  = Ret Returned /\
  List.last (snd (main lower_latin_cyrillic no_env tags_up
                    [number_stage; plain_stage])) Input
  = Stdout (MsgFatal AttributeError).
Proof.
  assert (Hv : fst (process_voice_command agent0 number_stage) = Ret (PInt 5))
    by (vm_compute; reflexivity).
  assert (Hinit : __init__ no_env None None tags_up =
                  (Ret agent0, snd (__init__ no_env None None tags_up)))
    by (vm_compute; reflexivity).
  destruct (non_string_reply_ends_session lower_latin_cyrillic no_env tags_up
              agent0 number_stage [plain_stage] Hv) as [_ [_ Hmain]];
    [discriminate | discriminate |].
  rewrite (Hmain Hinit). split; [reflexivity|].
  vm_compute. reflexivity.
Defined.

Lemma while_true_continues (body : stage -> io loop_ctl) (pre rest : list stage) :
  Forall (fun w => fst (body w) = Ret Continue) pre ->
  while_true body (pre ++ rest) =
    (fst (while_true body rest),
     List.concat (List.map (fun w => snd (body w)) pre) ++
     snd (while_true body rest)).
Proof.
  induction 1 as [|w pre Hw _ IH].
  - cbn [app List.map List.concat]. now destruct (while_true body rest).
  - cbn [app while_true List.map List.concat]. rewrite IH.
    destruct (body w) as [[c|e] t]; cbn [fst snd] in *; [|discriminate].
    injection Hw as ->. cbn [bind]. now rewrite app_assoc.
Qed.

(** X8: The loop ends at the first pass that does not continue, and the
    stages after it are never run: after passes that all continue, a pass
    that breaks ends the loop normally with the goodbye as its last line,
    and a pass that raises ends it with that exception -- in both cases
    the trace is that of the passes run, whatever stages follow. *)
Theorem loop_ends_at_first_exit
  (lower : str -> str) (agent : VoiceAgent) (pre : list stage) (w : stage)
  (rest : list stage) :
  Forall (continues lower agent) pre ->
  (fst (loop_body lower agent w) = Ret Break ->
   while_true (loop_body lower agent) (pre ++ w :: rest) =
     (Ret Returned,
      passes lower agent pre ++
      snd (process_voice_command agent w) ++ [Stdout MsgGoodbye])) /\
  (forall e, fst (loop_body lower agent w) = Raise e ->
   while_true (loop_body lower agent) (pre ++ w :: rest) =
     (Raise e, passes lower agent pre ++ snd (loop_body lower agent w))).
Proof.
  intros Hpre. split.
  - intros Hw. rewrite (@while_true_continues _ pre (w :: rest) Hpre). cbn [while_true].
    assert (Hsnd : snd (loop_body lower agent w) =
                   snd (process_voice_command agent w) ++ [Stdout MsgGoodbye]).
    { revert Hw. rewrite loop_body_eq.
      destruct (fst (process_voice_command agent w)) as [v|e]; [|discriminate].
      destruct (fst (wants_exit lower v)) as [[|]|e]; try discriminate.
      - reflexivity.
      - destruct (confirmation w); discriminate. }
    rewrite <- Hsnd.
    destruct (loop_body lower agent w) as [[c|e] t]; cbn [fst snd] in *;
      [|discriminate].
    injection Hw as ->. cbn [bind ret fst snd]. now rewrite app_nil_r.
  - intros e Hw. rewrite (@while_true_continues _ pre (w :: rest) Hpre). cbn [while_true].
    destruct (loop_body lower agent w) as [[c|e'] t]; cbn [fst snd] in *;
      [discriminate|].
    injection Hw as ->. reflexivity.
Qed.

Lemma loop_ends_at_first_exit_witness :
  while_true (loop_body lower_latin_cyrillic agent0)
    ([plain_stage; silent_stage] ++ exit_stage :: [plain_stage; stop_stage]) =
  (Ret Returned,
   passes lower_latin_cyrillic agent0 [plain_stage; silent_stage] ++
   snd (process_voice_command agent0 exit_stage) ++ [Stdout MsgGoodbye]).
Proof.
  apply (@loop_ends_at_first_exit lower_latin_cyrillic agent0
           [plain_stage; silent_stage] exit_stage [plain_stage; stop_stage]).
  - repeat constructor; vm_compute; reflexivity.
  - vm_compute. reflexivity.
Defined.

Lemma continues_prompts_once (lower : str -> str) (agent : VoiceAgent) (w : stage) :
  continues lower agent w -> prompts (snd (loop_body lower agent w)) = 1.
Proof.
  unfold continues. rewrite loop_body_eq.
  pose proof (no_prompts (process_voice_command_never_prompts agent w)) as H0.
  destruct (fst (process_voice_command agent w)) as [v|e]; [|discriminate].
  destruct (fst (wants_exit lower v)) as [[|]|e]; try discriminate.
  intros _. cbn [snd]. rewrite prompts_app, H0. reflexivity.
Qed.

(** X9: While every pass continues the loop stays alive, and it has asked
    for confirmation exactly once per pass: after a script whose stages
    all continue the run is at the top of a further pass, and its trace
    -- the traces of the passes in order -- holds as many prompts as
    there were stages. *)
Theorem one_prompt_per_continuing_pass
  (lower : str -> str) (agent : VoiceAgent) (script : list stage) :
  Forall (continues lower agent) script ->
  while_true (loop_body lower agent) script =
    (Ret Idle, passes lower agent script) /\
  prompts (passes lower agent script) = List.length script.
Proof.
  intros H. split.
  - pose proof (@while_true_continues (loop_body lower agent) script [] H) as E.
    rewrite app_nil_r in E. rewrite E. cbn [while_true ret fst snd].
    unfold passes. now rewrite app_nil_r.
  - unfold passes. induction H as [|w script Hw _ IH]; [reflexivity|].
    cbn [List.map List.concat List.length].
    now rewrite prompts_app, IH, (continues_prompts_once Hw).
Qed.

Lemma one_prompt_per_continuing_pass_witness :
  fst (while_true (loop_body lower_latin_cyrillic agent0)
         [plain_stage; silent_stage; stop_stage]) = Ret Idle /\
  prompts (passes lower_latin_cyrillic agent0
             [plain_stage; silent_stage; stop_stage]) = 3.
Proof.
  destruct (@one_prompt_per_continuing_pass lower_latin_cyrillic agent0
              [plain_stage; silent_stage; stop_stage]) as [H1 H2].
  - repeat constructor; vm_compute; reflexivity.
  - rewrite H1. split; [reflexivity | exact H2].
Defined.

(* ----------------------------------------------------------------- *)
(** ** A whole session *)

Lemma loop_body_Break_trace (lower : str -> str) (agent : VoiceAgent) (w : stage) :
  fst (loop_body lower agent w) = Ret Break ->
  snd (loop_body lower agent w) =
    snd (process_voice_command agent w) ++ [Stdout MsgGoodbye].
Proof.
  rewrite loop_body_eq.
  destruct (fst (process_voice_command agent w)) as [v|e]; [|discriminate].
  destruct (fst (wants_exit lower v)) as [[|]|e]; try discriminate.
  - reflexivity.
  - destruct (confirmation w); discriminate.
Qed.

Lemma while_true_Returned (lower : str -> str) (agent : VoiceAgent)
  (script : list stage) :
  fst (while_true (loop_body lower agent) script) = Ret Returned ->
  exists before,
    snd (while_true (loop_body lower agent) script) =
      before ++ [Stdout MsgGoodbye].
Proof.
  induction script as [|w script IH]; [discriminate|].
  cbn [while_true].
  pose proof (@loop_body_Break_trace lower agent w) as Hb.
  destruct (loop_body lower agent w) as [[[|]|e] t]; cbn [bind ret fst snd] in *.
  - destruct (while_true (loop_body lower agent) script) as [r t'].
    cbn [fst snd] in *. intros H. destruct (IH H) as [before ->].
    exists (t ++ before). now rewrite app_assoc.
  - intros _. rewrite (Hb eq_refl). eexists. now rewrite app_nil_r.
  - discriminate.
Qed.

Lemma main_eq (lower : str -> str) (env : environ) (tags : tags_endpoint)
  (script : list stage) :
  let banner :=
    Stdout (MsgBanner (getenv env OLLAMA_BASE_URL DEFAULT_URL)
                      (getenv env OLLAMA_MODEL DEFAULT_MODEL)) in
  let inner :=
    agent <- __init__ env None None tags ;;
    while_true (loop_body lower agent) script in
  main lower env tags script =
    match fst inner with
    | Ret st => (Ret st, banner :: snd inner)
    | Raise KeyboardInterrupt =>
        (Ret Returned, banner :: snd inner ++ [Stdout MsgFinished])
    | Raise e => (Ret Returned, banner :: snd inner ++ [Stdout (MsgFatal e)])
    end.
Proof.
  cbv zeta. unfold main.
  destruct (agent <- __init__ env None None tags ;;
            while_true (loop_body lower agent) script) as [[st|e] t].
  - reflexivity.
  - destruct e; reflexivity.
Qed.

(** X10: [main] always returns: no exception of a pass, of the construction
    or of the prompt leaves it.  When it has returned, the last line it
    printed is the goodbye (an exit word was found), the farewell (an
    interrupt), or the error notice naming the exception; otherwise the
    loop is alive, which needs a constructed agent. *)
Theorem main_always_returns
  (lower : str -> str) (env : environ) (tags : tags_endpoint)
  (script : list stage) :
  (fst (main lower env tags script) = Ret Idle \/
   fst (main lower env tags script) = Ret Returned) /\
  (fst (main lower env tags script) = Ret Returned ->
   exists before m,
     snd (main lower env tags script) = before ++ [Stdout m] /\
     (m = MsgGoodbye \/ m = MsgFinished \/ exists e, m = MsgFatal e)) /\
  (fst (main lower env tags script) = Ret Idle ->
   exists agent, fst (__init__ env None None tags) = Ret agent).
Proof.
  pose proof (main_eq lower env tags script) as E. cbv zeta in E.
  rewrite E. clear E.
  destruct (__init__ env None None tags) as [[agent|e] ti] eqn:Ei;
    cbn [bind fst snd].
  - pose proof (@while_true_Returned lower agent script) as HR.
    destruct (while_true (loop_body lower agent) script) as [[[|]|e] tl];
      cbn [fst snd] in *.
    + split; [now right|]. split; [|discriminate].
      intros _. destruct (HR eq_refl) as [before ->].
      eexists (_ :: ti ++ before), MsgGoodbye.
      split; [cbn [app]; now rewrite app_assoc | now left].
    + split; [now left|]. split; [discriminate|]. intros _. now exists agent.
    + split; [destruct e; now right|]. split; [|destruct e; discriminate].
      intros _. destruct e;
        (eexists (_ :: ti ++ tl), _; split; [reflexivity|]);
        solve [right; now left | right; right; eexists; reflexivity].
  - split; [destruct e; now right|]. split; [|destruct e; discriminate].
    intros _. destruct e;
      (eexists (_ :: ti), _; split; [reflexivity|]);
      solve [right; now left | right; right; eexists; reflexivity].
Qed.

Lemma gets_app (t1 t2 : trace) : gets (t1 ++ t2) = gets t1 ++ gets t2.
Proof.
  induction t1 as [|ev t1 IH]; [reflexivity|].
  destruct ev; cbn [gets app]; now rewrite ?IH.
Qed.

Lemma gets_none (t : trace) :
  Forall (fun ev => match ev with HttpGet _ _ => False | _ => True end) t ->
  gets t = [].
Proof.
  induction 1 as [|ev t Hev _ IH]; [reflexivity|].
  destruct ev; cbn [gets]; try exact IH. now elim Hev.
Qed.

Lemma after_listen_no_mic (self : VoiceAgent) (w : stage) (text : option str) :
  Forall (fun ev => is_mic_open ev = false /\ is_mic_close ev = false)
    (snd (match text with
          | None => ret PNone
          | Some text =>
              response <- get_llm_response self (chat w) text ;;
              if truthy response
              then print (MsgReply response) ;;; ret response
              else ret PNone
          end)).
Proof.
  unfold get_llm_response. trace_all; split; reflexivity.
Qed.

Lemma process_voice_command_mic_counts (self : VoiceAgent) (w : stage) :
  count is_mic_open (snd (process_voice_command self w)) =
  count is_mic_close (snd (process_voice_command self w)) /\
  count is_mic_open (snd (process_voice_command self w)) <= 1.
Proof.
  unfold process_voice_command. rewrite snd_bind, !count_app.
  destruct (listen_mic_counts self w) as [Hb Hle]. revert Hb Hle.
  generalize (count is_mic_open (snd (listen self w)))
             (count is_mic_close (snd (listen self w))).
  intros opened closed Hb Hle.
  destruct (fst (listen self w)) as [text|e].
  - pose proof (after_listen_no_mic self w text) as H.
    rewrite !count_none; [lia | |].
    + eapply Forall_impl; [|exact H]. now intros ev [_ Hc].
    + eapply Forall_impl; [|exact H]. now intros ev [Ho _].
  - unfold count. cbn [List.filter List.length]. lia.
Qed.

Lemma loop_body_tail (lower : str -> str) (agent : VoiceAgent) (w : stage) :
  exists tail,
    snd (loop_body lower agent w) =
      snd (process_voice_command agent w) ++ tail /\
    (tail = [] \/ tail = [Stdout MsgGoodbye] \/ tail = [Input]).
Proof.
  rewrite loop_body_eq.
  destruct (fst (process_voice_command agent w)) as [v|e].
  - destruct (fst (wants_exit lower v)) as [[|]|e]; cbn [snd].
    + exists [Stdout MsgGoodbye]. split; [reflexivity | right; now left].
    + exists [Input]. split; [reflexivity | right; now right].
    + exists []. split; [now rewrite app_nil_r | now left].
  - exists []. split; [now rewrite app_nil_r | now left].
Qed.

(** What one pass of the loop does, however it ends. *)
Lemma pass_accounting (lower : str -> str) (agent : VoiceAgent) (w : stage) :
  count is_mic_open (snd (loop_body lower agent w)) =
  count is_mic_close (snd (loop_body lower agent w)) /\
  count is_mic_open (snd (loop_body lower agent w)) <= 1 /\
  List.length (posts (snd (loop_body lower agent w))) <= 1 /\
  prompts (snd (loop_body lower agent w)) <= 1 /\
  gets (snd (loop_body lower agent w)) = [].
Proof.
  destruct (loop_body_tail lower agent w) as [tail [E Htail]].
  assert (Hg : gets (snd (loop_body lower agent w)) = []).
  { apply gets_none.
    unfold loop_body, wants_exit, py_lower, process_voice_command, listen,
      get_llm_response.
    trace_all; exact I. }
  rewrite E in *. rewrite !count_app, posts_app, prompts_app, length_app.
  destruct (process_voice_command_mic_counts agent w) as [Hb Hle].
  revert Hb Hle.
  generalize (count is_mic_open (snd (process_voice_command agent w)))
             (count is_mic_close (snd (process_voice_command agent w))).
  intros opened closed Hb Hle.
  rewrite (no_prompts (process_voice_command_never_prompts agent w)).
  rewrite process_voice_command_posts.
  destruct Htail as [-> | [-> | ->]]; destruct (heard w);
    cbn [count List.filter is_mic_open is_mic_close posts prompts List.length app];
    (split; [lia|]); (split; [lia|]); (split; [lia|]); (split; [lia|]);
    exact Hg.
Qed.

Lemma while_true_ran (body : stage -> io loop_ctl) (script : list stage) :
  exists ran later,
    script = ran ++ later /\
    snd (while_true body script) =
      List.concat (List.map (fun w => snd (body w)) ran).
Proof.
  induction script as [|w script IH].
  - exists [], []. split; reflexivity.
  - cbn [while_true]. destruct IH as [ran [later [Hs Ht]]].
    destruct (body w) as [[[|]|e] t] eqn:E; cbn [bind ret fst snd].
    + exists (w :: ran), later. split; [now rewrite Hs|].
      cbn [List.map List.concat]. rewrite E. cbn [snd].
      destruct (while_true body script). cbn [snd] in Ht. now rewrite Ht.
    + exists [w], script. split; [reflexivity|].
      cbn [List.map List.concat]. now rewrite E.
    + exists [w], script. split; [reflexivity|].
      cbn [List.map List.concat]. rewrite E. cbn [snd]. now rewrite app_nil_r.
Qed.

Lemma loop_accounting (lower : str -> str) (agent : VoiceAgent)
  (script : list stage) :
  let t := snd (while_true (loop_body lower agent) script) in
  count is_mic_open t = count is_mic_close t /\
  count is_mic_open t <= List.length script /\
  List.length (posts t) <= List.length script /\
  prompts t <= List.length script /\
  gets t = [].
Proof.
  cbv zeta.
  destruct (while_true_ran (loop_body lower agent) script)
    as [ran [later [-> ->]]].
  rewrite length_app.
  induction ran as [|w ran IH]; cbn [List.map List.concat List.length].
  - repeat split; cbn; lia.
  - rewrite !count_app, posts_app, prompts_app, gets_app, length_app.
    destruct (pass_accounting lower agent w) as [Hb [Hle [Hp [Hq ->]]]].
    destruct IH as [IH1 [IH2 [IH3 [IH4 ->]]]].
    split; [lia|]. split; [lia|]. split; [lia|]. split; [lia | reflexivity].
Qed.

(** The trace of [main]: the banner, the probe, the loop if the agent
    was constructed, and the closing notice if there is one. *)
Lemma main_shape (lower : str -> str) (env : environ) (tags : tags_endpoint)
  (script : list stage) :
  exists loop notice,
    snd (main lower env tags script) =
      [Stdout (MsgBanner (getenv env OLLAMA_BASE_URL DEFAULT_URL)
                         (getenv env OLLAMA_MODEL DEFAULT_MODEL));
       HttpGet (tags_url (getenv env OLLAMA_BASE_URL DEFAULT_URL)) 5] ++
      loop ++ notice /\
    (loop = [] \/
     loop = snd (while_true
                   (loop_body lower
                      (mk_agent mk_recognizer
                         (getenv env OLLAMA_BASE_URL DEFAULT_URL)
                         (getenv env OLLAMA_MODEL DEFAULT_MODEL)))
                   script)) /\
    (notice = [] \/ exists m, notice = [Stdout m]).
Proof.
  pose proof (main_eq lower env tags script) as E. cbv zeta in E.
  rewrite E. clear E. rewrite init_eq. cbv zeta. cbn [self_ollama_url py_or].
  set (agent := mk_agent mk_recognizer
                  (getenv env OLLAMA_BASE_URL DEFAULT_URL)
                  (getenv env OLLAMA_MODEL DEFAULT_MODEL)).
  destruct (match tags (tags_url (getenv env OLLAMA_BASE_URL DEFAULT_URL))
            with Returns r => _ | Raises e => _ end) as [a|e] eqn:Ea;
    cbn [bind fst snd app].
  - assert (a = agent) as ->.
    { destruct (tags _) as [r|e]; [destruct (status_code r =? 200)%Z|
                                   destruct (is_Exception e)];
        congruence. }
    destruct (while_true (loop_body lower agent) script) as [[st|e] tl];
      cbn [fst snd].
    + exists tl, []. rewrite app_nil_r. split; [reflexivity|].
      split; [now right | now left].
    + exists tl. destruct e; eexists; (split; [reflexivity|]);
        (split; [now right | right; eexists; reflexivity]).
  - exists []. destruct e; eexists; (split; [reflexivity|]);
      (split; [now left | right; eexists; reflexivity]).
Qed.

(** X11: The books of a session balance.  In every run of [main] -- whatever
    the stages, and however the run ends -- the microphone is closed as
    often as it is opened, at most once per pass run; there are at most as many
    chat requests and as many confirmation prompts as stages; and the
    availability of the service is asked exactly once, at start-up. *)
Theorem session_accounting
  (lower : str -> str) (env : environ) (tags : tags_endpoint)
  (script : list stage) :
  let t := snd (main lower env tags script) in
  count is_mic_open t = count is_mic_close t /\
  count is_mic_open t <= List.length script /\
  List.length (posts t) <= List.length script /\
  prompts t <= List.length script /\
  gets t = [tags_url (getenv env OLLAMA_BASE_URL DEFAULT_URL)].
Proof.
  cbv zeta.
  pose proof (main_shape lower env tags script) as Hshape.
  destruct Hshape as [loop [notice [-> [Hloop Hnotice]]]].
  rewrite !count_app, !posts_app, !prompts_app, !gets_app, !length_app.
  assert (Hn : count is_mic_open notice = 0 /\ count is_mic_close notice = 0 /\
               posts notice = [] /\ prompts notice = 0 /\ gets notice = []).
  { destruct Hnotice as [-> | [m ->]]; repeat split. }
  destruct Hn as [-> [-> [-> [-> ->]]]].
  assert (Hl : count is_mic_open loop = count is_mic_close loop /\
               count is_mic_open loop <= List.length script /\
               List.length (posts loop) <= List.length script /\
               prompts loop <= List.length script /\ gets loop = []).
  { destruct Hloop as [-> | ->].
    - repeat split; cbn; lia.
    - apply loop_accounting. }
  destruct Hl as [H1 [H2 [H3 [H4 ->]]]].
  cbn [count List.filter is_mic_open is_mic_close posts prompts gets
       List.length app].
  repeat split; try reflexivity; lia.
Qed.

(* ----------------------------------------------------------------- *)
(** ** The two addresses *)

(** X12: The probe and the chat call build their addresses differently.  The
    probe drops "/api" from the base address wherever it stands, not only
    at its end, before it appends "/api/tags"; a base address without
    "/api" is probed at [base + "/api/tags"].  The chat call appends
    "/chat" to the base address as it is.  So for a base address
    without "/api" the probe asks under "/api/" and the chat call does
    not. *)
Theorem probe_and_chat_addresses
  (self : VoiceAgent) (tags : tags_endpoint) (endpoint : chat_endpoint)
  (text : str) :
  let base := self_ollama_url self in
  (contains (u "/api") base = false ->
   gets (snd (_check_ollama_available self tags)) = [base ++ u "/api/tags"]) /\
  (forall host tail,
     base = host ++ u "/api" ++ tail -> first_at (u "/api") host tail ->
     contains (u "/api") tail = false ->
     gets (snd (_check_ollama_available self tags))
     = [host ++ tail ++ u "/api/tags"]) /\
  List.map fst (posts (snd (get_llm_response self endpoint text)))
  = [base ++ u "/chat"].
Proof.
  cbv zeta. rewrite check_ollama_available_eq. cbn [snd gets].
  unfold tags_url. split; [|split].
  - intros H. rewrite replace_absent by (discriminate || exact H). reflexivity.
  - intros host tail -> Hfirst Htail.
    rewrite replace_first by (discriminate || exact Hfirst).
    rewrite replace_absent by (discriminate || exact Htail).
    cbn [app]. now rewrite <- app_assoc.
  - destruct (get_llm_response_posts_once self endpoint text) as [-> _].
    reflexivity.
Qed.

Lemma probe_and_chat_addresses_witness :
  gets (snd (_check_ollama_available bare_agent tags_up))
  = [u "http://localhost:11434/api/tags"] /\
  List.map fst (posts (snd (get_llm_response bare_agent
                              (stub (Raises ReadTimeout)) [])))
  = [u "http://localhost:11434/chat"].
Proof.
  destruct (probe_and_chat_addresses bare_agent tags_up
              (stub (Raises ReadTimeout)) []) as [Hprobe [_ Hchat]].
  cbv zeta in Hprobe. split.
  - rewrite Hprobe; [vm_compute; reflexivity | vm_compute; reflexivity].
  - rewrite Hchat. vm_compute. reflexivity.
Defined.

(* ----------------------------------------------------------------- *)
(** ** The diagnostic program, whatever happens *)

Lemma for_each_all (P : event -> Prop) {A} (body : A -> io unit) (l : list A) :
  (forall x, Forall P (snd (body x))) -> Forall P (snd (for_each body l)).
Proof.
  intros H. induction l as [|x l IH]; cbn [for_each].
  - constructor.
  - apply all_bind; [apply H | intros _; exact IH].
Qed.

Lemma for_each_raises {A} (body : A -> io unit) (l : list A) (e : exn) :
  fst (for_each body l) = Raise e -> exists x, In x l /\ fst (body x) = Raise e.
Proof.
  induction l as [|x l IH]; cbn [for_each]; [discriminate|].
  destruct (body x) as [[[]|e'] t] eqn:E; cbn [bind fst].
  - destruct (for_each body l) as [r t']. cbn [fst] in *.
    intros H. destruct (IH H) as [y [Hin Hy]]. exists y. split; [now right | exact Hy].
  - intros H. injection H as ->. exists x. split; [now left | now rewrite E].
Qed.

Lemma test_text_to_llm_raises (env : environ) (endpoint : chat_endpoint)
  (text : str) (ollama_url model : option str) (e : exn) :
  fst (test_agent.test_text_to_llm env endpoint text ollama_url model) = Raise e ->
  is_Exception e = false.
Proof.
  unfold test_agent.test_text_to_llm. cbv zeta.
  chat_cases endpoint; try discriminate.
  destruct e0; cbn [is_requests_ConnectionError is_Exception bind try_except
                    ret raise fst snd app]; try discriminate.
  intros H. now injection H as <-.
Qed.

(** X13: The diagnostic program stands apart from the agent's start-up and
    from the microphone: in every run, whatever the endpoint answers, it
    never asks for availability, never touches the microphone or the
    recogniser and never prompts.  The only exception that leaves it is
    one that is not an [Exception] -- an interrupt, which [main] here
    does not catch. *)
Theorem diagnostic_program_limits (env : environ) (endpoint : nat -> chat_endpoint) :
  gets (snd (test_agent.main env endpoint)) = [] /\
  count is_audio_event (snd (test_agent.main env endpoint)) = 0 /\
  prompts (snd (test_agent.main env endpoint)) = 0 /\
  (forall e, fst (test_agent.main env endpoint) = Raise e ->
             is_Exception e = false).
Proof.
  assert (Hall : Forall (fun ev => match ev with
                                   | HttpGet _ _ => False
                                   | Input => False
                                   | _ => is_audio_event ev = false
                                   end)
                        (snd (test_agent.main env endpoint))).
  { unfold test_agent.main. apply all_bind; [trace_all; reflexivity|].
    intros _. apply all_bind; [trace_all; reflexivity|]. intros _.
    apply for_each_all. intros [i q].
    unfold test_agent.test_block, test_agent.test_text_to_llm.
    trace_all; reflexivity. }
  split; [|split; [|split]].
  - apply gets_none. eapply Forall_impl; [|exact Hall].
    intros ev; destruct ev; tauto.
  - apply count_none. eapply Forall_impl; [|exact Hall].
    intros ev; destruct ev; tauto.
  - apply no_prompts. eapply Forall_impl; [|exact Hall].
    intros ev; destruct ev; try discriminate; tauto.
  - intros e. unfold test_agent.main. unfold print, emit. cbn [bind].
    destruct (for_each (test_agent.test_block env endpoint)
                (enumerate test_agent.test_queries 1)) as [r t] eqn:E.
    cbn [fst]. intros ->.
    destruct (@for_each_raises _ (test_agent.test_block env endpoint)
                (enumerate test_agent.test_queries 1) e) as [[i q] [_ Hx]];
      [now rewrite E|].
    unfold test_agent.test_block in Hx. unfold print, emit in Hx.
    cbn [bind] in Hx.
    destruct (test_agent.test_text_to_llm env (endpoint i) q None None)
      as [[[]|e'] t'] eqn:Et; cbn [bind fst snd] in Hx; [discriminate|].
    injection Hx as ->.
    apply (@test_text_to_llm_raises env (endpoint i) q None None e).
    now rewrite Et.
Qed.

Lemma test_block_raises (env : environ) (endpoint : nat -> chat_endpoint)
  (i : nat) (query : str) (e : exn) :
  fst (test_agent.test_text_to_llm env (endpoint i) query None None) = Raise e ->
  test_agent.test_block env endpoint (i, query) =
    (Raise e,
     [Stdout (MsgTestHeader i 3); Stdout MsgDash] ++
     snd (test_agent.test_text_to_llm env (endpoint i) query None None)).
Proof.
  unfold test_agent.test_block.
  destruct (test_agent.test_text_to_llm env (endpoint i) query None None)
    as [[[]|e'] t]; cbn [fst snd]; intros H; [discriminate|].
  injection H as ->. reflexivity.
Qed.

(** X14: An interrupt during a diagnostic query is not caught: the program
    stops there with the interrupt, the queries after it are not sent. *)
Theorem diagnostic_interrupt_escapes
  (env : environ) (endpoint : nat -> chat_endpoint) (e : exn) :
  let base := getenv env OLLAMA_BASE_URL DEFAULT_URL in
  let name := getenv env OLLAMA_MODEL DEFAULT_MODEL in
  (forall url payload, interrupted (endpoint 1 url payload) = false) ->
  (forall url payload, endpoint 2 url payload = Raises e) ->
  is_Exception e = false ->
  fst (test_agent.main env endpoint) = Raise e /\
  posts (snd (test_agent.main env endpoint)) =
    [chat_call base name (u "посчитай два плюс два");
     chat_call base name
       (u "дай определение искусственного интеллекта в одном предложении")].
Proof.
  cbv zeta. intros H1 H2 He.
  assert (Hsecond : forall q,
    test_agent.test_text_to_llm env (endpoint 2) q None None =
    (Raise e,
     [Stdout (MsgQuery q);
      Stdout (MsgSending (getenv env OLLAMA_MODEL DEFAULT_MODEL));
      HttpPost (getenv env OLLAMA_BASE_URL DEFAULT_URL ++ u "/chat")
               (chat_payload (getenv env OLLAMA_MODEL DEFAULT_MODEL) q) 60])).
  { intros q. unfold test_agent.test_text_to_llm. cbv zeta. rewrite H2.
    unfold call, print, emit. cbn [py_or bind try_except ret raise app fst snd].
    destruct e; try discriminate He. reflexivity. }
  destruct (@block_trace_facts env endpoint 1 (u "посчитай два плюс два")
              (H1 _ _)) as [Hf [Hp _]].
  assert (Hmain :
    test_agent.main env endpoint =
    (Raise e,
     [Stdout (MsgBanner (getenv env OLLAMA_BASE_URL DEFAULT_URL)
                        (getenv env OLLAMA_MODEL DEFAULT_MODEL));
      Stdout MsgBlank] ++
     block_trace env endpoint 1 (u "посчитай два плюс два") ++
     [Stdout (MsgTestHeader 2 3); Stdout MsgDash] ++
     snd (test_agent.test_text_to_llm env (endpoint 2)
            (u "дай определение искусственного интеллекта в одном предложении")
            None None))).
  { unfold test_agent.main. rewrite enumerate_test_queries. cbn [for_each].
    rewrite (test_block_eq env endpoint 1 _ Hf).
    rewrite (@test_block_raises env endpoint 2 _ e)
      by (now rewrite Hsecond).
    reflexivity. }
  rewrite Hmain. split; [reflexivity|].
  change (snd (?a, ?b)) with b.
  rewrite !posts_app, Hp, Hsecond. reflexivity.
Qed.

Lemma diagnostic_interrupt_escapes_witness :
  fst (test_agent.main no_env interrupted_endpoint) = Raise KeyboardInterrupt /\
  List.length (posts (snd (test_agent.main no_env interrupted_endpoint))) = 2.
Proof.
  destruct (@diagnostic_interrupt_escapes no_env interrupted_endpoint
              KeyboardInterrupt) as [Hf Hp].
  - intros url payload. reflexivity.
  - intros url payload. reflexivity.
  - reflexivity.
  - split; [exact Hf|]. cbv zeta in Hp. now rewrite Hp.
Defined.

(* ----------------------------------------------------------------- *)
(** ** How a session ends, and under which settings it ran *)

(** X15: The three ways a session ends.  After the agent is constructed and
    some passes have continued, a pass that finds an exit word ends
    [main] with the goodbye; a pass interrupted from the keyboard --
    during listening, the chat call or the prompt -- ends it with the
    farewell; a pass that raises any [Exception] ends it with the error
    notice naming the exception.  In each case the trace is the banner,
    the probe, the passes run, and that closing line. *)
Theorem session_endings
  (lower : str -> str) (env : environ) (tags : tags_endpoint)
  (agent : VoiceAgent) (pre : list stage) (w : stage) (rest : list stage) :
  fst (__init__ env None None tags) = Ret agent ->
  Forall (continues lower agent) pre ->
  let start :=
    [Stdout (MsgBanner (getenv env OLLAMA_BASE_URL DEFAULT_URL)
                       (getenv env OLLAMA_MODEL DEFAULT_MODEL))] ++
    snd (__init__ env None None tags) ++ passes lower agent pre ++
    snd (loop_body lower agent w) in
  (fst (loop_body lower agent w) = Ret Break ->
   main lower env tags (pre ++ w :: rest) = (Ret Returned, start) /\
   List.last start Input = Stdout MsgGoodbye) /\
  (fst (loop_body lower agent w) = Raise KeyboardInterrupt ->
   main lower env tags (pre ++ w :: rest) =
     (Ret Returned, start ++ [Stdout MsgFinished])) /\
  (forall e, fst (loop_body lower agent w) = Raise e -> is_Exception e = true ->
   main lower env tags (pre ++ w :: rest) =
     (Ret Returned, start ++ [Stdout (MsgFatal e)])).
Proof.
  intros Hinit Hpre. cbv zeta.
  pose proof (main_eq lower env tags (pre ++ w :: rest)) as E. cbv zeta in E.
  rewrite E. clear E.
  destruct (__init__ env None None tags) as [r ti]. cbn [fst snd] in *. subst r.
  cbn [bind]. rewrite (@while_true_continues _ pre (w :: rest) Hpre).
  cbn [while_true fst snd].
  fold (passes lower agent pre).
  pose proof (@loop_body_Break_trace lower agent w) as Hb.
  destruct (loop_body lower agent w) as [[[|]|e] t]; cbn [bind ret fst snd] in *.
  - split; [discriminate|]. split; discriminate.
  - split; [|split; discriminate]. intros _.
    rewrite app_nil_r. split; [reflexivity|].
    rewrite (Hb eq_refl), !app_assoc. apply last_last.
  - split; [discriminate|]. split.
    + intros H. injection H as ->. cbn [app]. now rewrite <- ?app_assoc.
    + intros e' H He. injection H as ->.
      destruct e'; try discriminate He; cbn [app]; now rewrite <- ?app_assoc.
Qed.

Lemma session_endings_witness :
  main lower_latin_cyrillic no_env tags_up
    ([plain_stage] ++ exit_stage :: [stop_stage]) =
  (Ret Returned,
   [Stdout (MsgBanner DEFAULT_URL DEFAULT_MODEL)] ++
   snd (__init__ no_env None None tags_up) ++
   passes lower_latin_cyrillic agent0 [plain_stage] ++
   snd (loop_body lower_latin_cyrillic agent0 exit_stage)).
Proof.
  assert (Hinit : fst (__init__ no_env None None tags_up) = Ret agent0)
    by (vm_compute; reflexivity).
  assert (Hpre : Forall (continues lower_latin_cyrillic agent0) [plain_stage])
    by (repeat constructor; vm_compute; reflexivity).
  destruct (@session_endings lower_latin_cyrillic no_env tags_up agent0
              [plain_stage] exit_stage [stop_stage] Hinit Hpre) as [H _].
  apply H. vm_compute. reflexivity.
Defined.

(** X16: What the banner shows is what the session uses: every chat request
    of a run of [main] goes to the base address printed in the banner,
    with "/chat" appended, and names the model printed there. *)
Theorem banner_settings_are_used
  (lower : str -> str) (env : environ) (tags : tags_endpoint)
  (script : list stage) :
  let base := getenv env OLLAMA_BASE_URL DEFAULT_URL in
  let name := getenv env OLLAMA_MODEL DEFAULT_MODEL in
  List.hd Input (snd (main lower env tags script))
  = Stdout (MsgBanner base name) /\
  Forall (fun p => fst p = base ++ u "/chat" /\ req_model (snd p) = name)
         (posts (snd (main lower env tags script))).
Proof.
  cbv zeta.
  destruct (main_shape lower env tags script)
    as [loop [notice [-> [Hloop Hnotice]]]].
  split; [reflexivity|].
  rewrite !posts_app. cbn [posts app].
  apply Forall_app. split.
  - destruct Hloop as [-> | ->]; [constructor|].
    apply (loop_posts_use_settings lower
             (mk_agent mk_recognizer (getenv env OLLAMA_BASE_URL DEFAULT_URL)
                (getenv env OLLAMA_MODEL DEFAULT_MODEL)) script).
  - destruct Hnotice as [-> | [m ->]]; constructor.
Qed.
